(** * EditorUI (src/ui/editor.ts): overlay state, dialog flows, annotation

    A shallow embedding of the coordination logic wired up by the
    [EditorUI] constructor: the reference-counted spinner, the progress
    overlay handlers, the publish and video-export flows, the screen-space
    annotation of viewer mode, and the viewer-only branch of the
    constructor itself.

    Conventions.
    - A JavaScript number used as a counter is a [Z]; a number used as a
      coordinate or a progress amount is an IEEE binary64 [float].
    - A JavaScript string is a [string]; the names handled here are ASCII.
    - An optional property ([text?: string]) is an [option].
    - Widgets and commands that live in other modules of the repository
      appear through the calls the constructor makes on them. *)

From Stdlib Require Import ZArith List String Ascii Bool Lia Floats.
Import ListNotations.

Set Implicit Arguments.
Set Warnings "-inexact-float".

Local Open Scope Z_scope.

(** ** Spinner with reference counting (editor.ts, lines 460-478) *)

Module Spinner.

(** [spinnerCount] is the closure variable of the constructor;
    [hidden] is the [hidden] property of the [Spinner] widget. *)
Record State := mkState {
  spinnerCount : Z;
  hidden : bool
}.

(** [let spinnerCount = 0;] with the spinner widget not shown yet. *)
Definition initial : State := mkState 0 true.

(** [events.on('startSpinner', ...)]:
    [spinnerCount++; if (spinnerCount === 1) spinner.hidden = false;] *)
Definition startSpinner (s : State) : State :=
  let c := spinnerCount s + 1 in
  mkState c (if c =? 1 then false else hidden s).

(** [events.on('stopSpinner', ...)]:
    [spinnerCount = Math.max(0, spinnerCount - 1);
     if (spinnerCount === 0) spinner.hidden = true;] *)
Definition stopSpinner (s : State) : State :=
  let c := Z.max 0 (spinnerCount s - 1) in
  mkState c (if c =? 0 then true else hidden s).

Inductive Event := Start | Stop.

Definition handle (s : State) (e : Event) : State :=
  match e with
  | Start => startSpinner s
  | Stop => stopSpinner s
  end.

Definition run (es : list Event) (s : State) : State :=
  fold_left handle es s.

Definition visible (s : State) : bool := negb (hidden s).

(** Bookkeeping on event sequences. *)
Definition is_start (e : Event) : bool :=
  match e with Start => true | Stop => false end.

Definition is_stop (e : Event) : bool := negb (is_start e).

Definition starts (es : list Event) : Z :=
  Z.of_nat (List.length (filter is_start es)).

Definition stops (es : list Event) : Z :=
  Z.of_nat (List.length (filter is_stop es)).

Definition balance (es : list Event) : Z := starts es - stops es.

Definition delta (e : Event) : Z :=
  match e with Start => 1 | Stop => -1 end.

(** The least balance reached by a prefix of the sequence (the empty
    prefix, of balance 0, included). *)
Fixpoint lowest (es : list Event) : Z :=
  match es with
  | [] => 0
  | e :: es' => Z.min 0 (delta e + lowest es')
  end.

(** The state the handlers keep: the count is never negative and the
    widget is hidden exactly at count 0. *)
Definition wf (s : State) : Prop :=
  0 <= spinnerCount s /\ hidden s = (spinnerCount s =? 0).

End Spinner.

(** ** Progress overlay (editor.ts, lines 480-502) *)

Module Progress.

(** Modelled from the spec: the [Progress] widget class
    (src/ui/progress.ts) is not under src/.  The spec's data model gives
    it a header, a text and a value that are "independently settable
    fields", with visibility toggled separately; each setter therefore
    stores its argument in its own field and touches nothing else.
    What the spec says elsewhere of the overlay (text and value reset on
    progressStart, a value kept within [0,1]) is not done by the handlers
    of editor.ts and is not assumed of the setters here. *)
Record Widget := mkWidget {
  hidden : bool;
  header : string;
  text : string;
  value : float
}.

(** The calls the handlers of editor.ts make on the widget. *)
Inductive Call :=
| SetHidden (b : bool)
| SetHeader (headerMsg : string)
| SetText (textMsg : string)
| SetProgress (progress : float).

Definition apply (w : Widget) (c : Call) : Widget :=
  match c with
  | SetHidden b => mkWidget b (header w) (text w) (value w)
  | SetHeader h => mkWidget (hidden w) h (text w) (value w)
  | SetText t => mkWidget (hidden w) (header w) t (value w)
  | SetProgress v => mkWidget (hidden w) (header w) (text w) v
  end.

Definition perform (cs : list Call) (w : Widget) : Widget :=
  fold_left apply cs w.

(** Modelled from the spec: the defaults of a freshly created widget
    (hidden, empty header and text, value 0); the class is not under
    src/. *)
Definition initial : Widget := mkWidget true "" "" 0%float.

(** [options: { text?: string, progress?: number }] *)
Record Options := mkOptions {
  opt_text : option string;
  opt_progress : option float
}.

(** [events.on('progressStart', (header) => {
       progress.hidden = false; progress.setHeader(header); })] *)
Definition progressStart_calls (header : string) : list Call :=
  [SetHidden false; SetHeader header].

(** [events.on('progressUpdate', (options) => {
       if (options.text !== undefined) progress.setText(options.text);
       if (options.progress !== undefined)
           progress.setProgress(options.progress); })] *)
Definition progressUpdate_calls (options : Options) : list Call :=
  (match opt_text options with
   | Some t => [SetText t]
   | None => []
   end) ++
  (match opt_progress options with
   | Some v => [SetProgress v]
   | None => []
   end).

(** [events.on('progressEnd', () => { progress.hidden = true; })] *)
Definition progressEnd_calls : list Call := [SetHidden true].

Definition progressStart (header : string) (w : Widget) : Widget :=
  perform (progressStart_calls header) w.

Definition progressUpdate (options : Options) (w : Widget) : Widget :=
  perform (progressUpdate_calls options) w.

Definition progressEnd (w : Widget) : Widget :=
  perform progressEnd_calls w.

Inductive Event :=
| Start (header : string)
| Update (options : Options)
| End_.

Definition handle (w : Widget) (e : Event) : Widget :=
  match e with
  | Start h => progressStart h w
  | Update o => progressUpdate o w
  | End_ => progressEnd w
  end.

Definition run (es : list Event) (w : Widget) : Widget :=
  fold_left handle es w.

(** Membership in the closed unit interval, with the comparisons of
    binary64 (false on NaN). *)
Definition in_unit (v : float) : bool :=
  (0 <=? v)%float && (v <=? 1)%float.

(** The values a call hands to [setProgress]. *)
Definition passed_value (c : Call) : option float :=
  match c with
  | SetProgress v => Some v
  | _ => None
  end.

Definition passed_values (cs : list Call) : list float :=
  flat_map (fun c => match passed_value c with Some v => [v] | None => [] end)
           cs.

(** The values carried by an event. *)
Definition carried (e : Event) : list float :=
  match e with
  | Update o => match opt_progress o with Some v => [v] | None => [] end
  | _ => []
  end.

End Progress.

(** ** Screen-space annotation of viewer mode (editor.ts, lines 219-265) *)

Module Annotation.

Record Vec3 := mkVec3 { x : float; y : float; z : float }.

(** [VIEWER_NOTE] *)
Definition VIEWER_NOTE_position : Vec3 :=
  mkVec3 3.3191983272917707%float 3.0731552014743144%float
         (-76.79501217896394)%float.

Definition VIEWER_NOTE_label : string := "Wooden window frame".

(** [const noteWorld = new Vec3(VIEWER_NOTE.position.x, ...)] *)
Definition noteWorld : Vec3 := VIEWER_NOTE_position.

(** The camera capability read from [(window as any).scene].
    [worldToScreen(world, screen)] writes its result into [screen]; it
    is given here as the function from the world point and the previous
    contents of [screen] to the new contents. *)
Record Camera := mkCamera {
  worldToScreen : option (Vec3 -> Vec3 -> Vec3)
}.

Record Scene := mkScene { camera : option Camera }.

(** [canvas.getBoundingClientRect()] *)
Record DOMRect := mkRect {
  left : float; top : float; width : float; height : float
}.

(** What a tick can observe of its host: the global scene and the
    canvas rectangle at that moment. *)
Record Host := mkHost {
  window_scene : option Scene;
  canvas_rect : DOMRect
}.

(** [note.style.display]: untouched, ['none'] or ['flex']. *)
Inductive Display := DisplayUnset | DisplayNone | DisplayFlex.

(** The annotation element with the closure variable [noteScreen].
    [style_left = Some v] stands for the string [`${v}px`]. *)
Record Note := mkNote {
  display : Display;
  style_left : option float;
  style_top : option float;
  noteScreen : Vec3
}.

(** The element as created: no inline style, [noteScreen = new Vec3()]. *)
Definition created : Note :=
  mkNote DisplayUnset None None (mkVec3 0 0 0).

(** [scene?.camera?.worldToScreen] *)
Definition capability (h : Host) : option (Vec3 -> Vec3 -> Vec3) :=
  match window_scene h with
  | Some scene =>
      match camera scene with
      | Some cam => worldToScreen cam
      | None => None
      end
  | None => None
  end.

(** [noteScreen.z >= 0 && noteScreen.z <= 1 && noteScreen.x >= 0 && ...] *)
Definition inside (s : Vec3) : bool :=
  (0 <=? z s)%float && (z s <=? 1)%float &&
  (0 <=? x s)%float && (x s <=? 1)%float &&
  (0 <=? y s)%float && (y s <=? 1)%float.

Definition hide (n : Note) (s : Vec3) : Note :=
  mkNote DisplayNone (style_left n) (style_top n) s.

Definition updateNote (h : Host) (n : Note) : Note :=
  match capability h with
  | None => hide n (noteScreen n)
  | Some project =>
      let s := project noteWorld (noteScreen n) in
      if negb (inside s) then hide n s
      else
        let rect := canvas_rect h in
        mkNote DisplayFlex
               (Some (left rect + x s * width rect)%float)
               (Some (top rect + y s * height rect)%float)
               s
  end.

(** The pixel position of a projected point in a rectangle. *)
Definition pixel_left (rect : DOMRect) (s : Vec3) : float :=
  (left rect + x s * width rect)%float.

Definition pixel_top (rect : DOMRect) (s : Vec3) : float :=
  (top rect + y s * height rect)%float.

(** The unit screen box, each bound a binary64 comparison. *)
Definition in_unit (v : float) : Prop :=
  (0 <=? v)%float = true /\ (v <=? 1)%float = true.

Definition in_unit_box (s : Vec3) : Prop :=
  in_unit (z s) /\ in_unit (x s) /\ in_unit (y s).

End Annotation.

(** ** File names and the container table (editor.ts, lines 55-57, 383-422) *)

Module VideoNaming.

Local Open Scope string_scope.

(** [String.prototype.split] with a one-character separator. *)
Fixpoint split (sep : ascii) (s : string) : list string :=
  match s with
  | EmptyString => [EmptyString]
  | String c rest =>
      if Ascii.eqb c sep then EmptyString :: split sep rest
      else
        match split sep rest with
        | piece :: pieces => String c piece :: pieces
        | [] => [String c EmptyString]
        end
  end.

(** Modelled from the spec: [path.getExtension] belongs to the
    playcanvas engine package and is not under src/; the spec only says
    that the document's extension is stripped.  The definition follows
    the engine's helper: the last dot-separated piece of the part before
    the first question mark, with its dot, and the empty string when that
    piece is the whole path.
    [const ext = path.split('?')[0].split('.').pop();
     if (ext !== path) return `.${ext}`; return '';] *)
Definition getExtension (path : string) : string :=
  let ext := last (split "." (hd "" (split "?" path))) "" in
  if String.eqb ext path then "" else "." ++ ext.

(** [filename.substring(0, filename.length - getExtension(filename).length)];
    [substring] clamps its end index at 0, as the subtraction on [nat]
    does. *)
Definition removeExtension (filename : string) : string :=
  substring 0 (String.length filename - String.length (getExtension filename))
            filename.

(** [String.prototype.toUpperCase] on ASCII letters. *)
Definition upper_ascii (c : ascii) : ascii :=
  let n := nat_of_ascii c in
  if (Nat.leb 97 n && Nat.leb n 122)%bool then ascii_of_nat (n - 32) else c.

Fixpoint toUpperCase (s : string) : string :=
  match s with
  | EmptyString => EmptyString
  | String c rest => String (upper_ascii c) (toUpperCase rest)
  end.

(** [const codecNames: Record<string, string> = {...}] *)
Definition codecNames : list (string * string) :=
  [("h264", "H.264"); ("h265", "H.265"); ("vp9", "VP9"); ("av1", "AV1")].

Fixpoint lookup (key : string) (table : list (string * string))
  : option string :=
  match table with
  | [] => None
  | (k, v) :: rest => if String.eqb key k then Some v else lookup key rest
  end.

(** The members every plain object inherits from [Object.prototype]:
    [codecNames[key]] finds them too, and they are all truthy.  The text
    is what the template literal prints for the member (V8's wording for
    a built-in function). *)
Definition inherited_functions : list string :=
  ["toString"; "toLocaleString"; "valueOf"; "hasOwnProperty";
   "isPrototypeOf"; "propertyIsEnumerable"; "__defineGetter__";
   "__defineSetter__"; "__lookupGetter__"; "__lookupSetter__"].

Definition inherited (key : string) : option string :=
  if String.eqb key "constructor"
  then Some "function Object() { [native code] }"
  else if String.eqb key "__proto__" then Some "[object Object]"
  else if existsb (String.eqb key) inherited_functions
  then Some ("function " ++ key ++ "() { [native code] }")
  else None.

(** [codecNames[videoSettings.codec] || videoSettings.codec.toUpperCase()],
    as the text the template literals print for it. *)
Definition codecName (codec : string) : string :=
  match lookup codec codecNames with
  | Some label => if String.eqb label "" then toUpperCase codec else label
  | None =>
      match inherited codec with
      | Some member => member
      | None => toUpperCase codec
      end
  end.

(** One entry of [filePickerTypes]:
    [{ description: ..., accept: { mime: [extension] } }]. *)
Record FilePickerAcceptType := mkAcceptType {
  description : string;
  accept : list (string * list string)
}.

(** What the format branch assigns: [fileExtension] and
    [filePickerTypes]. *)
Definition container (format codecName : string)
  : string * list FilePickerAcceptType :=
  if String.eqb format "webm" then
    (".webm",
     [mkAcceptType ("WebM Video (" ++ codecName ++ ")")
                   [("video/webm", [".webm"])]])
  else if String.eqb format "mov" then
    (".mov",
     [mkAcceptType ("MOV Video (" ++ codecName ++ ")")
                   [("video/quicktime", [".mov"])]])
  else if String.eqb format "mkv" then
    (".mkv",
     [mkAcceptType ("MKV Video (" ++ codecName ++ ")")
                   [("video/x-matroska", [".mkv"])]])
  else
    (".mp4",
     [mkAcceptType ("MP4 Video (" ++ codecName ++ ")")
                   [("video/mp4", [".mp4"])]]).

(** The MIME keys of the [accept] objects, with their extensions. *)
Definition mimes (types : list FilePickerAcceptType)
  : list (string * list string) :=
  flat_map accept types.

(** [`${removeExtension(docName ?? 'supersplat')}${fileExtension}`] *)
Definition suggested (docName : option string) (extension : string)
  : string :=
  removeExtension (match docName with
                   | Some name => name
                   | None => "supersplat"
                   end) ++ extension.

End VideoNaming.

(** ** Dialog flows (editor.ts, lines 346-365 and 375-450) *)

Module Flow.

Import VideoNaming.
Local Open Scope string_scope.

(** A value caught by [catch (error)], through the observations the
    handler makes of it, each of which may itself throw:
    - [error instanceof DOMException && error.name === 'AbortError']
      ([kind]);
    - [error.message] ([message]): [undefined] or [null], a value that
      the template literal prints as a text, or a read or a conversion
      that throws;
    - the string conversion of [error] itself ([string_form]), used when
      the message is nullish; it throws for a Symbol or for an object
      without [toString], such as [Object.create(null)].
    [undefined] and [null] have no properties: reading [.message] of
    them raises a [TypeError]. *)
Inductive Thrown :=
| ThrownUndefined
| ThrownNull
| ThrownValue (kind : Instance) (message : Read) (string_form : Conv)
with Instance :=
| NotDOMException
| DOMExceptionNamed (name : string)
| DOMExceptionUnnamed
| InstanceFails (raised : Thrown)
with Read :=
| ReadNullish
| ReadText (text : string)
| ReadFails (raised : Thrown)
with Conv :=
| ConvText (text : string)
| ConvFails (raised : Thrown).

(** [new DOMException(message, name)] *)
Definition ThrownDOMException (name message : string) : Thrown :=
  ThrownValue (DOMExceptionNamed name) (ReadText message)
              (ConvText (name ++ ": " ++ message)).

(** [new Error(message)] *)
Definition ThrownError (message : string) : Thrown :=
  ThrownValue NotDOMException (ReadText message)
              (ConvText ("Error: " ++ message)).

(** [new TypeError(message)], as the engine raises it. *)
Definition TypeError (message : string) : Thrown :=
  ThrownValue NotDOMException (ReadText message)
              (ConvText ("TypeError: " ++ message)).

(** The [TypeError] raised by [error.message] when [error] is
    [undefined] or [null] ([what] names which); the wording is V8's. *)
Definition TypeError_reading_message (what : string) : Thrown :=
  TypeError ("Cannot read properties of " ++ what ++ " (reading 'message')").


(** [throw Symbol()]: no [message], and no implicit conversion to a
    string. *)
Definition ThrownSymbol : Thrown :=
  ThrownValue NotDOMException ReadNullish
              (ConvFails (TypeError "Cannot convert a Symbol value to a string")).


Inductive Outcome (A : Type) :=
| Returned (a : A)
| Threw (e : Thrown).
Arguments Returned {A} a.
Arguments Threw {A} e.

(** [ShowOptions] as the two flows fill it in. *)
Record ShowOptions := mkShowOptions {
  type : string;
  header : string;
  message : string
}.

(** Modelled from the spec: the settings records come from the dialog
    classes, which are not under src/; the video flow reads [format] and
    [codec] and passes the record on whole. *)
Record VideoSettings := mkVideoSettings {
  format : string;
  codec : string;
  other_settings : list (string * string)
}.

Inductive PublishSettings := publishSettings (fields : list (string * string)).
Inductive UserStatus := userStatus (user : string).
Inductive FileHandle := fileHandle (file : string).
Inductive Writable := writable (file : string).

(** The argument of [window.showSaveFilePicker]. *)
Record PickerOptions := mkPickerOptions {
  id : string;
  types : list FilePickerAcceptType;
  suggestedName : string
}.

(** Everything a flow does to the outside, in the order it does it. *)
Inductive Call :=
| Invoke_publish_userStatus
| Invoke_showPopup (options : ShowOptions)
| PublishSettingsDialog_show (status : UserStatus)
| Invoke_scene_publish (settings : PublishSettings)
| VideoSettingsDialog_show
| Invoke_doc_name
| ShowSaveFilePicker (options : PickerOptions)
| CreateWritable (handle : FileHandle)
| Invoke_render_video (settings : VideoSettings) (dest : option Writable).

(** How the outside answers.  Commands registered elsewhere and host
    functions may throw (reject).
    Modelled from the spec: the dialogs and the popup are classes that
    are not under src/; a dialog's [show()] settles as [Confirmed]
    (settings) or [Cancelled] (nothing), and [showPopup] returns the
    user's acknowledgement.  [publish.userStatus] answers a status, or a
    falsy value ([None]). *)
Record Env := mkEnv {
  localize : string -> string;
  publish_userStatus : Outcome (option UserStatus);
  publishSettingsDialog_show : UserStatus -> option PublishSettings;
  scene_publish : PublishSettings -> Outcome unit;
  videoSettingsDialog_show : option VideoSettings;
  doc_name : Outcome (option string);
  window_showSaveFilePicker : option (PickerOptions -> Outcome FileHandle);
  createWritable : FileHandle -> Outcome Writable;
  render_video : VideoSettings -> option Writable -> Outcome unit
}.

(** Computations that log their calls and may throw. *)
Definition M (A : Type) : Type := list Call -> Outcome A * list Call.

Definition ret {A} (a : A) : M A := fun log => (Returned a, log).

Definition bind {A B} (m : M A) (k : A -> M B) : M B :=
  fun log =>
    match m log with
    | (Returned a, log') => k a log'
    | (Threw e, log') => (Threw e, log')
    end.

Definition throw {A} (e : Thrown) : M A := fun log => (Threw e, log).

(** One call to the outside: logged, then answered. *)
Definition call {A} (c : Call) (answer : Outcome A) : M A :=
  fun log => (answer, (log ++ [c])%list).

(** [try { body } catch (error) { handler }] *)
Definition try_catch {A} (body : M A) (handler : Thrown -> M A) : M A :=
  fun log =>
    match body log with
    | (Returned a, log') => (Returned a, log')
    | (Threw e, log') => handler e log'
    end.

Notation "x <- m ;; k" := (bind m (fun x => k))
  (at level 61, m at next level, right associativity).

Definition exec {A} (m : M A) : Outcome A * list Call := m [].

(** What the publish handler resolves with: [false], or [undefined]
    when it runs to its end. *)
Inductive Resolved := ResolvedFalse | ResolvedUndefined.

(** [events.function('show.publishSettingsDialog', async () => {...})] *)
Definition show_publishSettingsDialog (env : Env) : M Resolved :=
  status <- call Invoke_publish_userStatus (publish_userStatus env) ;;
  match status with
  | None =>
      let options :=
        mkShowOptions "error"
                      (localize env "popup.error")
                      (localize env "popup.publish.please-log-in") in
      _ <- call (Invoke_showPopup options) (Returned tt) ;;
      ret ResolvedFalse
  | Some u =>
      settings <- call (PublishSettingsDialog_show u)
                       (Returned (publishSettingsDialog_show env u)) ;;
      match settings with
      | Some s =>
          _ <- call (Invoke_scene_publish s) (scene_publish env s) ;;
          ret ResolvedUndefined
      | None => ret ResolvedUndefined
      end
  end.

(** The body of the [try] block. *)
Definition render_video_to_file (env : Env) (videoSettings : VideoSettings)
  : M unit :=
  docName <- call Invoke_doc_name (doc_name env) ;;
  let codecName := codecName (codec videoSettings) in
  let '(fileExtension, filePickerTypes) :=
    container (format videoSettings) codecName in
  let suggested := suggested docName fileExtension in
  dest <-
    match window_showSaveFilePicker env with
    | Some showSaveFilePicker =>
        let options :=
          mkPickerOptions "SuperSplatVideoFileExport" filePickerTypes
                          suggested in
        handle <- call (ShowSaveFilePicker options)
                       (showSaveFilePicker options) ;;
        w <- call (CreateWritable handle) (createWritable env handle) ;;
        ret (Some w)
    | None => ret None
    end ;;
  call (Invoke_render_video videoSettings dest)
       (render_video env videoSettings dest).

(** [error instanceof DOMException && error.name === 'AbortError'] *)
Definition abort_test (e : Thrown) : Outcome bool :=
  match e with
  | ThrownUndefined | ThrownNull => Returned false
  | ThrownValue NotDOMException _ _ => Returned false
  | ThrownValue (DOMExceptionNamed name) _ _ =>
      Returned (String.eqb name "AbortError")
  | ThrownValue DOMExceptionUnnamed _ _ => Returned false
  | ThrownValue (InstanceFails raised) _ _ => Threw raised
  end.

(** [`'${error.message ?? error}'`] *)
Definition quoted (e : Thrown) : Outcome string :=
  match e with
  | ThrownUndefined => Threw (TypeError_reading_message "undefined")
  | ThrownNull => Threw (TypeError_reading_message "null")
  | ThrownValue _ (ReadFails raised) _ => Threw raised
  | ThrownValue _ (ReadText msg) _ => Returned ("'" ++ msg ++ "'")
  | ThrownValue _ ReadNullish (ConvText str) => Returned ("'" ++ str ++ "'")
  | ThrownValue _ ReadNullish (ConvFails raised) => Threw raised
  end.

(** The [catch] block. *)
Definition on_error (error : Thrown) : M unit :=
  match abort_test error with
  | Threw raised => throw raised
  | Returned true => ret tt
  | Returned false =>
      match quoted error with
      | Threw raised => throw raised
      | Returned msg =>
          call (Invoke_showPopup
                  (mkShowOptions "error" "Failed to render video" msg))
               (Returned tt)
      end
  end.

(** What the [catch] block itself throws on a caught value, if it
    does. *)
Definition catch_raises (error : Thrown) : option Thrown :=
  match abort_test error with
  | Threw raised => Some raised
  | Returned true => None
  | Returned false =>
      match quoted error with
      | Threw raised => Some raised
      | Returned _ => None
      end
  end.

(** [events.function('show.videoSettingsDialog', async () => {...})] *)
Definition show_videoSettingsDialog (env : Env) : M unit :=
  settings <- call VideoSettingsDialog_show
                   (Returned (videoSettingsDialog_show env)) ;;
  match settings with
  | Some videoSettings =>
      try_catch (render_video_to_file env videoSettings) on_error
  | None => ret tt
  end.

(** The error notifications of a log. *)
Definition is_showPopup (c : Call) : bool :=
  match c with
  | Invoke_showPopup _ => true
  | _ => false
  end.

Definition popups (log : list Call) : list Call := filter is_showPopup log.

Definition is_publish (c : Call) : bool :=
  match c with
  | Invoke_scene_publish _ => true
  | _ => false
  end.

Definition is_publish_dialog (c : Call) : bool :=
  match c with
  | PublishSettingsDialog_show _ => true
  | _ => false
  end.

Definition is_render_video (c : Call) : bool :=
  match c with
  | Invoke_render_video _ _ => true
  | _ => false
  end.

(** How the [try] block ends once the dialog has given its settings. *)
Definition try_outcome (env : Env) (videoSettings : VideoSettings)
  : Outcome unit :=
  fst (render_video_to_file env videoSettings [VideoSettingsDialog_show]).

(** The picker options of a log, if the picker was asked. *)
Fixpoint picker_request (log : list Call) : option PickerOptions :=
  match log with
  | [] => None
  | ShowSaveFilePicker o :: _ => Some o
  | _ :: rest => picker_request rest
  end.

End Flow.

(** ** The constructor and the bus (editor.ts, lines 67-523) *)

Module Editor.

Local Open Scope string_scope.

(** [interface EditorUIOptions { viewerOnly?: boolean; }] *)
Record EditorUIOptions := mkOptions { viewerOnly : option bool }.

(** [new EditorUI(events)]: [options = {}]. *)
Definition default_options : EditorUIOptions := mkOptions None.

(** Widgets appended to one of the containers. *)
Inductive Component :=
| Canvas | AppLabel | CursorLabel | ToolsContainer
| ScenePanel | ViewPanel | ColorPanel | BottomToolbar | RightToolbar
| ModeToggle | Menu | ViewCube
| CanvasContainer | TimelinePanel | DataPanel
| Popup | ExportPopup | PublishSettingsDialog | ImageSettingsDialog
| VideoSettingsDialog | ShortcutsPopup | AboutPopup
| SpinnerWidget | ProgressWidget.

(** [keyof typeof CAMERA_TARGETS] *)
Inductive PresetKey := image1 | image2 | image3.

(** [makeButton(label, key)] *)
Record Button := makeButton { label : string; key : PresetKey }.

(** Elements the constructor appends to [document.body]. *)
Inductive BodyNode :=
| ViewerCameraPresets (buttons : list Button)
| ViewerAnnotation (children : list string) (text : string)
| AppContainer.

(** The callbacks the constructor registers. *)
Inductive Handler :=
| OnFocalPointPicked
| UpdateNote
| ViewCubeUpdate
| ShowShortcuts
| ShowAbout
| StartSpinner
| StopSpinner
| ProgressStart
| ProgressUpdate
| ProgressEnd.

Record EditorUI := mkEditorUI {
  canvasContainer : list Component;
  mainContainer : list Component;
  topContainer : list Component;
  document_body : list BodyNode;
  (** [events.on(name, handler)], in registration order *)
  subscriptions : list (string * Handler);
  (** [window.addEventListener(name, handler)] *)
  window_listeners : list (string * Handler);
  (** [events.function(name, ...)] *)
  functions : list string
}.

(** The overlay state the handlers act on; [note] is the annotation
    element and its closure, present once the element is created. *)
Record State := mkState {
  spinner : Spinner.State;
  progress : Progress.Widget;
  note : option Annotation.Note
}.

(** [const viewerOnly = options.viewerOnly ?? false;] *)
Definition flag (options : EditorUIOptions) : bool :=
  match viewerOnly options with
  | Some b => b
  | None => false
  end.

Definition constructor (options : EditorUIOptions) : EditorUI :=
  let viewerOnly := flag options in
  mkEditorUI
    (* canvasContainer *)
    ([Canvas; AppLabel; CursorLabel; ToolsContainer] ++
     (if negb viewerOnly then
        [ScenePanel; ViewPanel; ColorPanel; BottomToolbar; RightToolbar;
         ModeToggle; Menu]
      else [RightToolbar]) ++
     [ViewCube])%list
    (* mainContainer *)
    ([CanvasContainer] ++
     (if negb viewerOnly then [TimelinePanel; DataPanel] else []))%list
    (* topContainer *)
    ([Popup; ExportPopup; PublishSettingsDialog; ImageSettingsDialog;
      VideoSettingsDialog] ++
     (if negb viewerOnly then [ShortcutsPopup] else []) ++
     [AboutPopup; SpinnerWidget; ProgressWidget])%list
    (* document.body *)
    ((if negb viewerOnly then []
      else
        [ViewerCameraPresets
           [makeButton "Image 1" image1;
            makeButton "Image 2" image2;
            makeButton "Image 3" image3];
         ViewerAnnotation
           ["viewer-annotation-arrow"; "viewer-annotation-line";
            "viewer-annotation-label"]
           Annotation.VIEWER_NOTE_label]) ++
     [AppContainer])%list
    (* events.on *)
    ([("camera.focalPointPicked", OnFocalPointPicked)] ++
     (if negb viewerOnly then [] else [("prerender", UpdateNote)]) ++
     [("prerender", ViewCubeUpdate);
      ("show.shortcuts", ShowShortcuts);
      ("show.about", ShowAbout);
      ("startSpinner", StartSpinner);
      ("stopSpinner", StopSpinner);
      ("progressStart", ProgressStart);
      ("progressUpdate", ProgressUpdate);
      ("progressEnd", ProgressEnd)])%list
    (* window.addEventListener *)
    (if negb viewerOnly then [] else [("resize", UpdateNote)])
    (* events.function *)
    ["show.exportPopup"; "show.publishSettingsDialog";
     "show.imageSettingsDialog"; "show.videoSettingsDialog"; "showPopup"].

(** The state right after construction. *)
Definition constructed (options : EditorUIOptions) : State :=
  mkState Spinner.initial Progress.initial
          (if negb (flag options) then None else Some Annotation.created).

(** An argument list given to [events.fire]. *)
Inductive Payload :=
| NoArgs
| HeaderArg (header : string)
| OptionsArg (options : Progress.Options)
| OtherArgs.

(** Something that happens after construction: an event fired on the
    bus, or a DOM event delivered to [window]; each sees the host as it
    is at that moment. *)
Inductive Occurrence :=
| Fire (name : string) (args : Payload) (host : Annotation.Host)
| WindowEvent (name : string) (host : Annotation.Host).

Definition host_of (o : Occurrence) : Annotation.Host :=
  match o with
  | Fire _ _ h => h
  | WindowEvent _ h => h
  end.

Definition args_of (o : Occurrence) : Payload :=
  match o with
  | Fire _ a _ => a
  | WindowEvent _ _ => OtherArgs
  end.

(** The handlers an occurrence reaches, in registration order. *)
Definition listening (name : string) (table : list (string * Handler))
  : list Handler :=
  map snd (filter (fun entry => String.eqb (fst entry) name) table).

Definition handlers_for (ui : EditorUI) (o : Occurrence) : list Handler :=
  match o with
  | Fire name _ _ => listening name (subscriptions ui)
  | WindowEvent name _ => listening name (window_listeners ui)
  end.

(** One callback on the overlay state.  Callbacks that act on other
    widgets only (cursor label, view cube, popups) leave it as it is.
    The progress handlers read the argument their TypeScript signature
    declares ([header: string], [options: {...}]); an occurrence whose
    payload has another shape is outside these signatures, and is left
    without effect here. *)
Definition run_handler (args : Payload) (host : Annotation.Host)
           (st : State) (h : Handler) : State :=
  match h with
  | UpdateNote =>
      mkState (spinner st) (progress st)
              (option_map (Annotation.updateNote host) (note st))
  | StartSpinner =>
      mkState (Spinner.startSpinner (spinner st)) (progress st) (note st)
  | StopSpinner =>
      mkState (Spinner.stopSpinner (spinner st)) (progress st) (note st)
  | ProgressStart =>
      match args with
      | HeaderArg header =>
          mkState (spinner st) (Progress.progressStart header (progress st))
                  (note st)
      | _ => st
      end
  | ProgressUpdate =>
      match args with
      | OptionsArg options =>
          mkState (spinner st)
                  (Progress.progressUpdate options (progress st)) (note st)
      | _ => st
      end
  | ProgressEnd =>
      mkState (spinner st) (Progress.progressEnd (progress st)) (note st)
  | OnFocalPointPicked | ViewCubeUpdate | ShowShortcuts | ShowAbout => st
  end.

Definition deliver (ui : EditorUI) (st : State) (o : Occurrence) : State :=
  fold_left (run_handler (args_of o) (host_of o)) (handlers_for ui o) st.

Definition run (ui : EditorUI) (os : list Occurrence) (st : State) : State :=
  fold_left (deliver ui) os st.

(** Every callback run along a sequence of occurrences. *)
Definition handlers_run (ui : EditorUI) (os : list Occurrence)
  : list Handler :=
  flat_map (handlers_for ui) os.

Definition is_annotation (n : BodyNode) : bool :=
  match n with ViewerAnnotation _ _ => true | _ => false end.

Definition is_updateNote (h : Handler) : bool :=
  match h with UpdateNote => true | _ => false end.

(** The preset buttons found in the document. *)
Definition preset_buttons (ui : EditorUI) : list Button :=
  flat_map (fun n => match n with
                     | ViewerCameraPresets bs => bs
                     | _ => []
                     end) (document_body ui).

Definition annotation_elements (ui : EditorUI) : list BodyNode :=
  filter is_annotation (document_body ui).

(** Registrations of [updateNote], on the bus or on [window]. *)
Definition updateNote_registrations (ui : EditorUI)
  : list (string * Handler) :=
  filter (fun entry => is_updateNote (snd entry))
         (subscriptions ui ++ window_listeners ui).

(** The occurrences the annotation follows. *)
Definition prerender (host : Annotation.Host) : Occurrence :=
  Fire "prerender" OtherArgs host.

Definition resize (host : Annotation.Host) : Occurrence :=
  WindowEvent "resize" host.

(** A prerender event on the bus (whatever its arguments) or a resize of
    the window. *)
Definition is_tick (o : Occurrence) : bool :=
  match o with
  | Fire name _ _ => String.eqb name "prerender"
  | WindowEvent name _ => String.eqb name "resize"
  end.

End Editor.

(** ** Sample environments for the flows *)

Module Examples.

Import Flow.
Local Open Scope string_scope.

Definition settings_mkv_h265 : VideoSettings :=
  mkVideoSettings "mkv" "h265" [("frameRate", "30")].

Definition settings_avi : VideoSettings :=
  mkVideoSettings "avi" "prores" [].

(** A host with a file picker where every command succeeds. *)
Definition env_ok : Env :=
  mkEnv (fun key => key)
        (Returned (Some (userStatus "ada")))
        (fun _ => Some (publishSettings [("title", "scene")]))
        (fun _ => Returned tt)
        (Some settings_mkv_h265)
        (Returned (Some "scene.ply"))
        (Some (fun _ => Returned (fileHandle "scene.mkv")))
        (fun h => match h with fileHandle f => Returned (writable f) end)
        (fun _ _ => Returned tt).

(** Nobody is logged in. *)
Definition env_logged_out : Env :=
  mkEnv (localize env_ok)
        (Returned None)
        (publishSettingsDialog_show env_ok)
        (scene_publish env_ok)
        (videoSettingsDialog_show env_ok)
        (doc_name env_ok)
        (window_showSaveFilePicker env_ok)
        (createWritable env_ok)
        (render_video env_ok).

(** The user dismisses the file picker. *)
Definition env_picker_cancelled : Env :=
  mkEnv (localize env_ok)
        (publish_userStatus env_ok)
        (publishSettingsDialog_show env_ok)
        (scene_publish env_ok)
        (videoSettingsDialog_show env_ok)
        (doc_name env_ok)
        (Some (fun _ => Threw (ThrownDOMException
                                 "AbortError" "The user aborted a request.")))
        (createWritable env_ok)
        (render_video env_ok).

(** Rendering fails with an ordinary [Error]. *)
Definition env_render_fails : Env :=
  mkEnv (localize env_ok)
        (publish_userStatus env_ok)
        (publishSettingsDialog_show env_ok)
        (scene_publish env_ok)
        (videoSettingsDialog_show env_ok)
        (doc_name env_ok)
        (window_showSaveFilePicker env_ok)
        (createWritable env_ok)
        (fun _ _ => Threw (ThrownError "encoder not supported")).

(** A host without [showSaveFilePicker] in which [render.video] rejects
    with a [DOMException] named [AbortError] (a closed encoder). *)
Definition env_encoder_aborted : Env :=
  mkEnv (localize env_ok)
        (publish_userStatus env_ok)
        (publishSettingsDialog_show env_ok)
        (scene_publish env_ok)
        (videoSettingsDialog_show env_ok)
        (doc_name env_ok)
        None
        (createWritable env_ok)
        (fun _ _ => Threw (ThrownDOMException
                             "AbortError" "Aborted due to close()")).

(** [render.video] rejects with a Symbol. *)
Definition env_symbol_thrown : Env :=
  mkEnv (localize env_ok)
        (publish_userStatus env_ok)
        (publishSettingsDialog_show env_ok)
        (scene_publish env_ok)
        (videoSettingsDialog_show env_ok)
        (doc_name env_ok)
        (window_showSaveFilePicker env_ok)
        (createWritable env_ok)
        (fun _ _ => Threw ThrownSymbol).

(** An unknown container format and codec. *)
Definition env_avi : Env :=
  mkEnv (localize env_ok)
        (publish_userStatus env_ok)
        (publishSettingsDialog_show env_ok)
        (scene_publish env_ok)
        (Some settings_avi)
        (doc_name env_ok)
        (window_showSaveFilePicker env_ok)
        (createWritable env_ok)
        (render_video env_ok).

(** A document whose name has a question mark in it. *)
Definition env_question_mark : Env :=
  mkEnv (localize env_ok)
        (publish_userStatus env_ok)
        (publishSettingsDialog_show env_ok)
        (scene_publish env_ok)
        (videoSettingsDialog_show env_ok)
        (Returned (Some "room?final.ply"))
        (window_showSaveFilePicker env_ok)
        (createWritable env_ok)
        (render_video env_ok).

End Examples.

(** ** Camera presets of viewer mode (editor.ts, lines 35-48, 171-217) *)

Module CameraPresets.

Import Annotation.
Local Open Scope string_scope.

(** One entry of [CAMERA_TARGETS]; also the [pose] object handed to the
    bus. *)
Record Pose := mkPose { position : Vec3; target : Vec3 }.

(** [const CAMERA_TARGETS = { image1: ..., image2: ..., image3: ... }] *)
Definition CAMERA_TARGETS (key : Editor.PresetKey) : Pose :=
  match key with
  | Editor.image1 =>
      mkPose (mkVec3 (-0.09481655806303024)%float 1.9842095375061035%float
                     (-30.723054885864258)%float)
             (mkVec3 0.3025389442118099%float 2.315386377683981%float
                     (-49.691884485997235)%float)
  | Editor.image2 =>
      mkPose (mkVec3 0.8265447020530701%float 2.75212025642395%float
                     (-74.70670318603516)%float)
             (mkVec3 13.980445489022944%float 5.327443779980989%float
                     (-88.1390024722935)%float)
  | Editor.image3 =>
      mkPose (mkVec3 0.9127567410469055%float 9.438339233398438%float
                     (-67.42160034179688)%float)
             (mkVec3 0.8746512648643985%float 5.859911900022582%float
                     (-66.74004597150994)%float)
  end.

(** The property name behind a key, as the template literals print it. *)
Definition key_name (key : Editor.PresetKey) : string :=
  match key with
  | Editor.image1 => "image1"
  | Editor.image2 => "image2"
  | Editor.image3 => "image3"
  end.

(** What [applyPreset] reads of [(window as any).scene]: whether the
    scene has a camera, and whether that camera has a [setPose]. *)
Record Camera := mkCamera { has_setPose : bool }.
Record Scene := mkScene { camera : option Camera }.

(** What a click does to the outside, in order. *)
Inductive Effect :=
| Stop_propagation
| Console_log (msg : string)
| Fire_camera_setPose (pose : Pose) (speed : float) (easing : string)
| Call_setPose (position target : Vec3) (speed : float) (easing : string)
| Set_forceRender.

(** [scene?.camera?.setPose?.(...)] is a call only when all three are
    there. *)
Definition direct_setPose (scene : option Scene) : bool :=
  match scene with
  | Some s =>
      match camera s with
      | Some c => has_setPose c
      | None => false
      end
  | None => false
  end.

Definition applyPreset (key : Editor.PresetKey) (scene : option Scene)
  : list Effect :=
  let preset := CAMERA_TARGETS key in
  let moveSpeed := 2.6%float in
  let moveEasing := "easeIn" in
  let pose := mkPose (position preset) (target preset) in
  ([Fire_camera_setPose pose moveSpeed moveEasing] ++
   (if direct_setPose scene
    then [Call_setPose (position pose) (target pose) moveSpeed moveEasing]
    else []) ++
   (match scene with
    | Some _ => [Set_forceRender]
    | None => []
    end) ++
   [Console_log ("[viewer-camera] moved to " ++ key_name key)])%list.

(** The [click] listener of a button made by [makeButton(label, key)]. *)
Definition click (b : Editor.Button) (scene : option Scene) : list Effect :=
  ([Stop_propagation;
    Console_log ("[viewer-camera] click " ++ key_name (Editor.key b))] ++
   applyPreset (Editor.key b) scene)%list.

(** The [pointerdown] listener of a button. *)
Definition pointerdown : list Effect := [Stop_propagation].

Definition is_fire (e : Effect) : bool :=
  match e with Fire_camera_setPose _ _ _ => true | _ => false end.

Definition is_call (e : Effect) : bool :=
  match e with Call_setPose _ _ _ _ => true | _ => false end.

Definition is_forceRender (e : Effect) : bool :=
  match e with Set_forceRender => true | _ => false end.

Definition key_eqb (a b : Editor.PresetKey) : bool :=
  match a, b with
  | Editor.image1, Editor.image1 => true
  | Editor.image2, Editor.image2 => true
  | Editor.image3, Editor.image3 => true
  | _, _ => false
  end.

End CameraPresets.

(** ** Image flow (editor.ts, lines 367-373) *)

Module ImageFlow.

Inductive ImageSettings := mkImageSettings (fields : list (string * string)).

Inductive Call :=
| ImageSettingsDialog_show
| Invoke_render_image (settings : ImageSettings).

(** Modelled from the spec: the image dialog class is not under src/; its
    [show()] settles with settings or with nothing.  [render.image] is a
    command registered elsewhere and may reject. *)
Record Env := mkEnv {
  imageSettingsDialog_show : option ImageSettings;
  render_image : ImageSettings -> Flow.Outcome unit
}.

(** [events.function('show.imageSettingsDialog', async () => {
       const imageSettings = await imageSettingsDialog.show();
       if (imageSettings) await events.invoke('render.image', imageSettings);
     })] *)
Definition show_imageSettingsDialog (env : Env)
  : Flow.Outcome unit * list Call :=
  match imageSettingsDialog_show env with
  | Some imageSettings =>
      (match render_image env imageSettings with
       | Flow.Returned _ => Flow.Returned tt
       | Flow.Threw e => Flow.Threw e
       end,
       [ImageSettingsDialog_show; Invoke_render_image imageSettings])
  | None => (Flow.Returned tt, [ImageSettingsDialog_show])
  end.

End ImageFlow.

(** ** Shortcuts and about popups (editor.ts, lines 315-319, 336-340,
       452-454) *)

Module Popups.

(** [shortcutsPopup] is [null] in viewer mode; otherwise the widget with
    its [hidden] flag.  [aboutPopup] always exists. *)
Record State := mkState {
  shortcutsPopup : option bool;
  aboutPopup_hidden : bool
}.

(** The popups right after construction; [hidden0] is the [hidden] flag
    the popup classes (not under src/) start with. *)
Definition constructed (options : Editor.EditorUIOptions) (hidden0 : bool)
  : State :=
  mkState (if negb (Editor.flag options) then Some hidden0 else None)
          hidden0.

(** [events.on('show.shortcuts', () => {
       if (shortcutsPopup) shortcutsPopup.hidden = false; })] *)
Definition show_shortcuts (st : State) : State :=
  mkState (match shortcutsPopup st with
           | Some _ => Some false
           | None => None
           end)
          (aboutPopup_hidden st).

(** [events.on('show.about', () => { aboutPopup.hidden = false; })] *)
Definition show_about (st : State) : State :=
  mkState (shortcutsPopup st) false.

Inductive Event := ShowShortcuts | ShowAbout.

Definition handle (st : State) (e : Event) : State :=
  match e with
  | ShowShortcuts => show_shortcuts st
  | ShowAbout => show_about st
  end.

Definition run (es : list Event) (st : State) : State :=
  fold_left handle es st.

End Popups.

(** ** Reading sequences of occurrences *)

Module Reading.

Local Open Scope string_scope.

(** The spinner event an occurrence amounts to, if any. *)
Definition spinner_events (o : Editor.Occurrence) : list Spinner.Event :=
  match o with
  | Editor.Fire name _ _ =>
      if String.eqb name "startSpinner" then [Spinner.Start]
      else if String.eqb name "stopSpinner" then [Spinner.Stop]
      else []
  | Editor.WindowEvent _ _ => []
  end.

Definition is_progress_name (name : string) : bool :=
  String.eqb name "progressStart" || String.eqb name "progressUpdate"
  || String.eqb name "progressEnd".

(** Does the occurrence carry one of the names of the progress events? *)
Definition is_progress (o : Editor.Occurrence) : bool :=
  match o with
  | Editor.Fire name _ _ => is_progress_name name
  | Editor.WindowEvent _ _ => false
  end.

(** The names the constructor subscribes to on the bus. *)
Definition subscribed (ui : Editor.EditorUI) (name : string) : bool :=
  existsb (fun entry => String.eqb (fst entry) name) (Editor.subscriptions ui).




(** Does the string contain the character? *)
Fixpoint contains (c : ascii) (s : string) : bool :=
  match s with
  | EmptyString => false
  | String a rest => Ascii.eqb a c || contains c rest
  end.

(** The document name with its extension stripped, in the words of the
    spec: the name up to its last dot, and the whole name when it has no
    dot. *)
Fixpoint spec_strip_extension (name : string) : string :=
  match name with
  | EmptyString => EmptyString
  | String c rest =>
      if contains "." rest then String c (spec_strip_extension rest)
      else if Ascii.eqb c "." then EmptyString
      else String c (spec_strip_extension rest)
  end.

End Reading.

(** * Properties *)

(** ** Spinner *)

Section SpinnerFacts.

Import Spinner.

Lemma balance_cons (e : Event) (es : list Event) :
  balance (e :: es) = delta e + balance es.
Proof.
  unfold balance, starts, stops, is_stop.
  destruct e; cbn [filter is_start negb List.length delta];
    rewrite Nat2Z.inj_succ; lia.
Qed.

Lemma balance_nil : balance [] = 0.
Proof. reflexivity. Qed.

Lemma lowest_nonpos (es : list Event) : lowest es <= 0.
Proof. destruct es; simpl; lia. Qed.

(** [lowest] is below the balance of every prefix... *)
Lemma lowest_lower_bound (es : list Event) (n : nat) :
  lowest es <= balance (firstn n es).
Proof.
  revert n; induction es as [|e es IH]; intros n.
  - destruct n; simpl; rewrite balance_nil; lia.
  - destruct n as [|n].
    + simpl firstn. rewrite balance_nil. apply lowest_nonpos.
    + simpl firstn. rewrite balance_cons. specialize (IH n).
      simpl lowest. lia.
Qed.

(** ... and is the balance of one of them. *)
Lemma lowest_attained (es : list Event) :
  exists n, lowest es = balance (firstn n es).
Proof.
  induction es as [|e es [n IH]].
  - exists 0%nat. reflexivity.
  - simpl lowest.
    destruct (Z.min_spec 0 (delta e + lowest es)) as [[_ ->]|[_ ->]].
    + exists 0%nat. reflexivity.
    + exists (S n). simpl firstn. rewrite balance_cons. lia.
Qed.

Lemma wf_initial : wf initial.
Proof. split; simpl; [lia | reflexivity]. Qed.

Lemma wf_handle (s : State) (e : Event) : wf s -> wf (handle s e).
Proof.
  intros [Hc Hh]. destruct e; unfold wf; simpl.
  - split; [lia|].
    destruct (Z.eqb_spec (spinnerCount s + 1) 1) as [E|E].
    + symmetry. apply Z.eqb_neq. lia.
    + rewrite Hh.
      destruct (Z.eqb_spec (spinnerCount s) 0);
        destruct (Z.eqb_spec (spinnerCount s + 1) 0);
        first [reflexivity | lia].
  - split; [lia|].
    destruct (Z.eqb_spec (Z.max 0 (spinnerCount s - 1)) 0) as [E|E].
    + reflexivity.
    + rewrite Hh. apply Z.eqb_neq. lia.
Qed.

Lemma wf_run (es : list Event) (s : State) : wf s -> wf (run es s).
Proof.
  revert s; induction es as [|e es IH]; intros s H; simpl.
  - exact H.
  - apply IH, wf_handle, H.
Qed.

(** The count after a sequence, from any state the handlers can be in. *)
Lemma count_run (es : list Event) (s : State) :
  0 <= spinnerCount s ->
  spinnerCount (run es s)
  = spinnerCount s + balance es - Z.min 0 (spinnerCount s + lowest es).
Proof.
  revert s; induction es as [|e es IH]; intros s Hc.
  - simpl. rewrite balance_nil. lia.
  - change (run (e :: es) s) with (run es (handle s e)).
    rewrite balance_cons. simpl lowest.
    pose proof (lowest_nonpos es) as Hl.
    destruct e; cbn [handle delta];
      (rewrite IH; [|cbn [startSpinner stopSpinner spinnerCount]; lia]);
      cbn [startSpinner stopSpinner spinnerCount]; lia.
Qed.

Lemma visible_iff_positive (s : State) :
  wf s -> (visible s = true <-> 0 < spinnerCount s).
Proof.
  intros [Hc Hh]. unfold visible. rewrite Hh.
  destruct (Z.eqb_spec (spinnerCount s) 0); simpl; split;
    first [lia | discriminate | reflexivity].
Qed.

(** With no stop arriving at count 0 the count is the plain
    difference. *)
Lemma count_run_balanced (es : list Event) :
  lowest es = 0 ->
  spinnerCount (run es initial) = Z.max 0 (starts es - stops es).
Proof.
  intros H. rewrite count_run by (simpl; lia). simpl spinnerCount.
  pose proof (lowest_lower_bound es (List.length es)) as Hb.
  rewrite firstn_all in Hb. unfold balance in *. lia.
Qed.

Lemma count_run_ge (es : list Event) :
  Z.max 0 (starts es - stops es) <= spinnerCount (run es initial).
Proof.
  rewrite count_run by (simpl; lia). simpl spinnerCount.
  pose proof (lowest_lower_bound es (List.length es)) as Hb.
  pose proof (lowest_nonpos es).
  rewrite firstn_all in Hb. unfold balance in *. lia.
Qed.

End SpinnerFacts.

(** C1, as the spec words it, fails: a [stopSpinner] that arrives at
    count 0 is absorbed by the clamp, so after [stopSpinner; startSpinner]
    the count is 1 while [max(0, starts - stops)] is 0. *)
Lemma C1_count_is_not_clamped_difference :
  let es := [Spinner.Stop; Spinner.Start] in
  ~ (Spinner.spinnerCount (Spinner.run es Spinner.initial)
     = Z.max 0 (Spinner.starts es - Spinner.stops es)
     /\ (Spinner.visible (Spinner.run es Spinner.initial) = true
         <-> 0 < Spinner.spinnerCount (Spinner.run es Spinner.initial))).
Proof.
  intros es [H _]. vm_compute in H. discriminate H.
Qed.

(** C1 (amended): after any sequence of startSpinner/stopSpinner events
    from the initial state, the count is [starts - stops - m], where [m]
    is the least value of [starts - stops] over the prefixes of the
    sequence (the empty one included); it equals [max(0, starts - stops)]
    exactly when [m = min(0, starts - stops)]; and the spinner is visible
    iff the count is greater than 0. *)
Theorem C1_spinner_count_and_visibility (es : list Spinner.Event) :
  let s := Spinner.run es Spinner.initial in
  let b := Spinner.starts es - Spinner.stops es in
  let m := Spinner.lowest es in
  (forall n, m <= Spinner.starts (firstn n es) - Spinner.stops (firstn n es))
  /\ (exists n,
        m = Spinner.starts (firstn n es) - Spinner.stops (firstn n es))
  /\ Spinner.spinnerCount s = b - m
  /\ (Spinner.spinnerCount s = Z.max 0 b <-> m = Z.min 0 b)
  /\ (Spinner.visible s = true <-> 0 < Spinner.spinnerCount s).
Proof.
  intros s b m.
  assert (Hcount : Spinner.spinnerCount s = b - m).
  { unfold s, b, m. rewrite count_run by (simpl; lia).
    pose proof (lowest_nonpos es). unfold Spinner.balance. simpl. lia. }
  split; [intros n; apply (lowest_lower_bound es n)|].
  split; [apply (lowest_attained es)|].
  split; [exact Hcount|].
  split.
  - rewrite Hcount. lia.
  - apply visible_iff_positive, wf_run, wf_initial.
Qed.

(** ** Progress overlay *)

Section ProgressFacts.

Import Progress.

Lemma progressStart_unfold (h : string) (w : Widget) :
  progressStart h w = mkWidget false h (text w) (value w).
Proof. reflexivity. Qed.

Lemma progressUpdate_unfold (o : Options) (w : Widget) :
  progressUpdate o w
  = mkWidget (hidden w) (header w)
             (match opt_text o with Some t => t | None => text w end)
             (match opt_progress o with Some v => v | None => value w end).
Proof.
  destruct o as [[t|] [v|]], w; reflexivity.
Qed.

Lemma progressEnd_unfold (w : Widget) :
  progressEnd w = mkWidget true (header w) (text w) (value w).
Proof. reflexivity. Qed.

(** The handler of progressUpdate hands [setProgress] the carried value
    and nothing else. *)
Lemma progressUpdate_passes (o : Options) :
  passed_values (progressUpdate_calls o)
  = match opt_progress o with Some v => [v] | None => [] end.
Proof. destruct o as [[t|] [v|]]; reflexivity. Qed.

Lemma value_handle (w : Widget) (e : Event) :
  value (handle w e) = last (carried e) (value w).
Proof.
  destruct e as [h|o|]; simpl; try reflexivity.
  rewrite progressUpdate_unfold. destruct (opt_progress o); reflexivity.
Qed.

Lemma value_run_in_unit (es : list Event) (w : Widget) :
  in_unit (value w) = true ->
  Forall (fun v => in_unit v = true) (flat_map carried es) ->
  in_unit (value (run es w)) = true.
Proof.
  revert w; induction es as [|e es IH]; intros w Hw Hes; simpl.
  - exact Hw.
  - simpl in Hes. apply Forall_app in Hes as [He Hes].
    apply IH; [|exact Hes].
    rewrite value_handle. destruct e as [h|o|]; cbn [carried last] in *;
      try exact Hw.
    destruct (opt_progress o) as [v|]; cbn [last]; [|exact Hw].
    inversion He; assumption.
Qed.

End ProgressFacts.



(** ** Annotation *)

Section AnnotationFacts.

Import Annotation.

Lemma inside_iff (s : Vec3) : inside s = true <-> in_unit_box s.
Proof.
  unfold inside, in_unit_box, in_unit.
  rewrite !andb_true_iff. tauto.
Qed.

Lemma updateNote_absent (h : Host) (n : Note) :
  capability h = None ->
  updateNote h n = hide n (noteScreen n).
Proof. intros H. unfold updateNote. rewrite H. reflexivity. Qed.

Lemma updateNote_outside (h : Host) (n : Note) project :
  capability h = Some project ->
  inside (project noteWorld (noteScreen n)) = false ->
  updateNote h n = hide n (project noteWorld (noteScreen n)).
Proof.
  intros H Hin. unfold updateNote. rewrite H. cbv zeta. rewrite Hin.
  reflexivity.
Qed.

Lemma updateNote_inside (h : Host) (n : Note) project :
  capability h = Some project ->
  inside (project noteWorld (noteScreen n)) = true ->
  updateNote h n
  = let s := project noteWorld (noteScreen n) in
    mkNote DisplayFlex
           (Some (pixel_left (canvas_rect h) s))
           (Some (pixel_top (canvas_rect h) s)) s.
Proof.
  intros H Hin. unfold updateNote. rewrite H. cbv zeta. rewrite Hin.
  reflexivity.
Qed.

(** A depth of 1.5 is outside, whatever the two screen axes are. *)
Lemma depth_outside (s : Vec3) : z s = 1.5%float -> inside s = false.
Proof.
  intros H. unfold inside. rewrite H.
  change (1.5 <=? 1)%float with false.
  rewrite andb_false_r. reflexivity.
Qed.

(** In viewer mode a prerender tick and a resize both come down to one
    run of [updateNote]. *)
Lemma deliver_tick_viewer (o : Editor.Occurrence) (st : Editor.State) :
  Editor.is_tick o = true ->
  Editor.deliver (Editor.constructor (Editor.mkOptions (Some true))) st o
  = Editor.mkState (Editor.spinner st) (Editor.progress st)
                   (option_map (updateNote (Editor.host_of o))
                               (Editor.note st)).
Proof.
  intros H. destruct o as [name args host|name host]; simpl in H;
    apply String.eqb_eq in H; subst name; reflexivity.
Qed.

End AnnotationFacts.

(** C2: in viewer mode, after every prerender tick and every resize of
    the window the annotation is hidden when the camera capability is
    absent; otherwise it is shown iff the projected point lies in the unit
    screen box (depth and both axes in [0,1]) and hidden iff it does not,
    a projected depth of 1.5 hides it whatever x and y are, and when shown
    it sits at the pixel position computed from the canvas rectangle of
    that moment. *)
Theorem C2_annotation_follows_projection
        (o : Editor.Occurrence) (st : Editor.State) (n : Annotation.Note) :
  Editor.is_tick o = true ->
  Editor.note st = Some n ->
  let host := Editor.host_of o in
  exists n',
    Editor.note
      (Editor.deliver (Editor.constructor (Editor.mkOptions (Some true)))
                      st o) = Some n'
    /\ match Annotation.capability host with
       | None => Annotation.display n' = Annotation.DisplayNone
       | Some project =>
           let p := project Annotation.noteWorld (Annotation.noteScreen n) in
           (Annotation.display n' = Annotation.DisplayFlex
            <-> Annotation.in_unit_box p)
           /\ (Annotation.display n' = Annotation.DisplayNone
               <-> ~ Annotation.in_unit_box p)
           /\ (Annotation.in_unit_box p ->
               Annotation.style_left n'
               = Some (Annotation.pixel_left (Annotation.canvas_rect host) p)
               /\ Annotation.style_top n'
                  = Some (Annotation.pixel_top (Annotation.canvas_rect host) p))
           /\ (Annotation.z p = 1.5%float ->
               Annotation.display n' = Annotation.DisplayNone)
       end.
Proof.
  intros Ho Hn host. exists (Annotation.updateNote host n). split.
  - rewrite (deliver_tick_viewer o st Ho). simpl. rewrite Hn. reflexivity.
  - destruct (Annotation.capability host) as [project|] eqn:Hcap.
    + cbv zeta. rewrite <- inside_iff.
      destruct (Annotation.inside
                  (project Annotation.noteWorld (Annotation.noteScreen n)))
        eqn:Hin.
      * rewrite (@updateNote_inside host n project Hcap Hin). cbv zeta. simpl.
        repeat split; intros; try congruence.
        pose proof (depth_outside _ H). congruence.
      * rewrite (@updateNote_outside host n project Hcap Hin). simpl.
        repeat split; intros; try congruence.
    + rewrite (@updateNote_absent host n Hcap). reflexivity.
Qed.

Lemma C2_annotation_follows_projection_witness :
  let rect := Annotation.mkRect 10%float 20%float 800%float 600%float in
  let host_with project :=
    Annotation.mkHost
      (Some (Annotation.mkScene
               (Some (Annotation.mkCamera (Some project))))) rect in
  let on_screen := fun (_ _ : Annotation.Vec3) =>
                     Annotation.mkVec3 0.5%float 0.25%float 0.5%float in
  let too_deep := fun (_ _ : Annotation.Vec3) =>
                    Annotation.mkVec3 0.5%float 0.25%float 1.5%float in
  let options := Editor.mkOptions (Some true) in
  (exists n',
     Editor.note (Editor.deliver (Editor.constructor options)
                                 (Editor.constructed options)
                                 (Editor.resize (host_with on_screen)))
     = Some n'
     /\ Annotation.display n' = Annotation.DisplayFlex
     /\ Annotation.style_left n' = Some 410%float
     /\ Annotation.style_top n' = Some 170%float)
  /\ (exists n',
        Editor.note (Editor.deliver (Editor.constructor options)
                                    (Editor.constructed options)
                                    (Editor.prerender (host_with too_deep)))
        = Some n'
        /\ Annotation.display n' = Annotation.DisplayNone).
Proof.
  intros rect host_with on_screen too_deep options. split.
  - destruct (@C2_annotation_follows_projection
                (Editor.resize (host_with on_screen))
                (Editor.constructed options)
                Annotation.created eq_refl eq_refl)
      as (n' & Hnote & Hshown & _ & Hpos & _).
    exists n'. split; [exact Hnote|].
    assert (Hbox : Annotation.in_unit_box
                     (on_screen Annotation.noteWorld
                                (Annotation.noteScreen Annotation.created))).
    { repeat split; reflexivity. }
    split; [apply Hshown, Hbox|].
    destruct (Hpos Hbox) as [Hl Ht]. split; [exact Hl | exact Ht].
  - destruct (@C2_annotation_follows_projection
                (Editor.prerender (host_with too_deep))
                (Editor.constructed options)
                Annotation.created eq_refl eq_refl)
      as (n' & Hnote & _ & _ & _ & Hdeep).
    exists n'. split; [exact Hnote | apply Hdeep; reflexivity].
Defined.

(** ** Dialog flows *)

Section FlowFacts.

Import VideoNaming Flow.

Lemma popups_app (l l' : list Call) :
  popups (l ++ l') = (popups l ++ popups l')%list.
Proof. apply filter_app. Qed.

(** The [try] block never shows a popup itself. *)
Lemma render_video_to_file_popups (env : Env) (vs : VideoSettings)
      (log : list Call) :
  popups (snd (render_video_to_file env vs log)) = popups log.
Proof.
  unfold render_video_to_file, bind, call, ret.
  destruct (doc_name env) as [d|e]; cbn [snd fst];
    [|rewrite popups_app, app_nil_r; reflexivity].
  destruct (container (format vs) (codecName (codec vs))) as [ext types].
  destruct (window_showSaveFilePicker env) as [picker|].
  - destruct (picker _) as [h|e]; cbn [snd];
      [|rewrite !popups_app, !app_nil_r; reflexivity].
    destruct (createWritable env h) as [w|e]; cbn [snd];
      [|rewrite !popups_app, !app_nil_r; reflexivity].
    rewrite !popups_app, !app_nil_r; reflexivity.
  - cbn [snd]. rewrite !popups_app, !app_nil_r; reflexivity.
Qed.

(** The flow after its [try] block has thrown: the [catch] block runs on
    the log of the block. *)
Lemma show_videoSettingsDialog_catch (env : Env) (vs : VideoSettings)
      (e : Thrown) :
  videoSettingsDialog_show env = Some vs ->
  try_outcome env vs = Threw e ->
  exec (show_videoSettingsDialog env)
  = on_error e (snd (render_video_to_file env vs [VideoSettingsDialog_show])).
Proof.
  intros Hd Ht. unfold try_outcome in Ht.
  unfold exec, show_videoSettingsDialog, bind, call. cbn [app].
  rewrite Hd. unfold try_catch.
  destruct (render_video_to_file env vs [VideoSettingsDialog_show])
    as [[a|e'] log'].
  - discriminate Ht.
  - cbn in Ht. injection Ht as ->. reflexivity.
Qed.

Lemma popups_try_block (env : Env) (vs : VideoSettings) :
  popups (snd (render_video_to_file env vs [VideoSettingsDialog_show])) = [].
Proof. rewrite render_video_to_file_popups. reflexivity. Qed.

End FlowFacts.

(** What the [catch] block makes of a value thrown in the [try] block:
    silence for a [DOMException] named [AbortError]; one popup with the
    quoted message, or string form, of any other value that can be read
    and converted; and a rejection of the flow, with no popup, when the
    block itself throws on the value. *)
Lemma video_error_reporting
      (env : Flow.Env) (vs : Flow.VideoSettings) (e : Flow.Thrown) :
  Flow.videoSettingsDialog_show env = Some vs ->
  Flow.try_outcome env vs = Flow.Threw e ->
  let result := Flow.exec (Flow.show_videoSettingsDialog env) in
  (Flow.abort_test e = Flow.Returned true ->
     fst result = Flow.Returned tt /\ Flow.popups (snd result) = [])
  /\ (forall msg,
        Flow.abort_test e = Flow.Returned false ->
        Flow.quoted e = Flow.Returned msg ->
        fst result = Flow.Returned tt
        /\ Flow.popups (snd result)
           = [Flow.Invoke_showPopup
                (Flow.mkShowOptions "error" "Failed to render video" msg)])
  /\ (forall raised,
        Flow.catch_raises e = Some raised ->
        fst result = Flow.Threw raised /\ Flow.popups (snd result) = []).
Proof.
  intros Hd Ht result. unfold result.
  rewrite (show_videoSettingsDialog_catch env Hd Ht).
  unfold Flow.on_error, Flow.catch_raises.
  pose proof (popups_try_block env vs) as Hp.
  split; [|split].
  - intros Ha. rewrite Ha. split; [reflexivity | exact Hp].
  - intros msg Ha Hq. rewrite Ha, Hq. unfold Flow.call. cbn [fst snd].
    split; [reflexivity|]. rewrite popups_app, Hp. reflexivity.
  - intros raised.
    destruct (Flow.abort_test e) as [[|]|r]; try discriminate.
    + destruct (Flow.quoted e) as [msg|r]; [discriminate|].
      intros H; injection H as ->. split; [reflexivity | exact Hp].
    + intros H; injection H as ->. split; [reflexivity | exact Hp].
Qed.

(** C3: the code departs from the claim.  The [catch] block tells a
    cancellation by the type and name of the error, not by where it came
    from: on a host without a file picker, a [render.video] that rejects
    with a [DOMException] named [AbortError] takes the branch commented
    [user cancelled save dialog]; the flow resolves and no popup is
    shown, although no save dialog was ever opened. *)
Lemma C3_abort_outside_picker_is_silent :
  let env := Examples.env_encoder_aborted in
  let result := Flow.exec (Flow.show_videoSettingsDialog env) in
  Flow.picker_request (snd result) = None
  /\ Flow.try_outcome env Examples.settings_mkv_h265
     = Flow.Threw (Flow.ThrownDOMException "AbortError"
                                           "Aborted due to close()")
  /\ fst result = Flow.Returned tt
  /\ Flow.popups (snd result) = [].
Proof.
  intros env result. repeat split.
Qed.

(** A thrown value that cannot be converted to a string (a Symbol) makes
    the [catch] block itself throw: the flow rejects and shows no
    popup. *)
Lemma video_flow_symbol_error :
  let result := Flow.exec (Flow.show_videoSettingsDialog
                             Examples.env_symbol_thrown) in
  Flow.try_outcome Examples.env_symbol_thrown Examples.settings_mkv_h265
  = Flow.Threw Flow.ThrownSymbol
  /\ (exists raised, fst result = Flow.Threw raised)
  /\ Flow.popups (snd result) = [].
Proof.
  intros result. split; [reflexivity|]. split; [eexists|]; reflexivity.
Qed.

(** A dismissed picker also keeps [render.video] from being invoked. *)
Lemma picker_cancelled_no_render :
  filter Flow.is_render_video
         (snd (Flow.exec (Flow.show_videoSettingsDialog
                            Examples.env_picker_cancelled))) = [].
Proof. reflexivity. Qed.

(** C4: in the publish flow, when publish.userStatus resolves falsy the
    flow shows one error popup with the please-log-in message, never shows
    the publish settings dialog, never invokes scene.publish and resolves
    with [false]; when it resolves truthy and the dialog resolves with
    settings, scene.publish is invoked with exactly those settings. *)
Theorem C4_publish_flow (env : Flow.Env) :
  let result := Flow.exec (Flow.show_publishSettingsDialog env) in
  (Flow.publish_userStatus env = Flow.Returned None ->
     fst result = Flow.Returned Flow.ResolvedFalse
     /\ snd result
        = [Flow.Invoke_publish_userStatus;
           Flow.Invoke_showPopup
             (Flow.mkShowOptions
                "error"
                (Flow.localize env "popup.error")
                (Flow.localize env "popup.publish.please-log-in"))]
     /\ filter Flow.is_publish_dialog (snd result) = []
     /\ filter Flow.is_publish (snd result) = [])
  /\ (forall status settings,
        Flow.publish_userStatus env = Flow.Returned (Some status) ->
        Flow.publishSettingsDialog_show env status = Some settings ->
        snd result
        = [Flow.Invoke_publish_userStatus;
           Flow.PublishSettingsDialog_show status;
           Flow.Invoke_scene_publish settings]).
Proof.
  intros result. unfold result, Flow.exec, Flow.show_publishSettingsDialog,
    Flow.bind, Flow.call, Flow.ret.
  split.
  - intros H. rewrite H. cbn. repeat split.
  - intros status settings H Hs. rewrite H. cbn. rewrite Hs.
    destruct (Flow.scene_publish env settings); reflexivity.
Qed.

Lemma C4_publish_flow_witness :
  (let result := Flow.exec (Flow.show_publishSettingsDialog
                              Examples.env_logged_out) in
   fst result = Flow.Returned Flow.ResolvedFalse
   /\ snd result
      = [Flow.Invoke_publish_userStatus;
         Flow.Invoke_showPopup
           (Flow.mkShowOptions "error" "popup.error"
                               "popup.publish.please-log-in")])
  /\ snd (Flow.exec (Flow.show_publishSettingsDialog Examples.env_ok))
     = [Flow.Invoke_publish_userStatus;
        Flow.PublishSettingsDialog_show (Flow.userStatus "ada");
        Flow.Invoke_scene_publish
          (Flow.publishSettings [("title", "scene")%string])].
Proof.
  split.
  - destruct (C4_publish_flow Examples.env_logged_out) as [H _].
    destruct (H eq_refl) as (Hres & Hlog & _). split; [exact Hres | exact Hlog].
  - destruct (C4_publish_flow Examples.env_ok) as [_ H].
    apply (H (Flow.userStatus "ada")
             (Flow.publishSettings [("title", "scene")%string])
             eq_refl eq_refl).
Defined.

Section NamingFacts.

Import VideoNaming Flow.
Local Open Scope string_scope.

(** What the flow asks the picker, when the host has one. *)
Lemma picker_request_of_flow (env : Env) (vs : VideoSettings)
      (d : option string) picker :
  videoSettingsDialog_show env = Some vs ->
  doc_name env = Returned d ->
  window_showSaveFilePicker env = Some picker ->
  picker_request (snd (exec (show_videoSettingsDialog env)))
  = Some (mkPickerOptions
            "SuperSplatVideoFileExport"
            (snd (container (format vs) (codecName (codec vs))))
            (suggested d (fst (container (format vs) (codecName (codec vs)))))).
Proof.
  intros Hd Hn Hp.
  unfold exec, show_videoSettingsDialog, bind, call. cbn [app].
  rewrite Hd. unfold try_catch, render_video_to_file, bind, call, ret.
  rewrite Hn, Hp.
  destruct (container (format vs) (codecName (codec vs))) as [ext types].
  cbn [fst snd app].
  destruct (picker _) as [h|e].
  - destruct (createWritable env h) as [w|e].
    + destruct (render_video env vs (Some w)) as [[]|e]; [reflexivity|].
      unfold on_error. destruct (abort_test e) as [[|]|r]; try reflexivity.
      destruct (quoted e); reflexivity.
    + unfold on_error. destruct (abort_test e) as [[|]|r]; try reflexivity.
      destruct (quoted e); reflexivity.
  - unfold on_error. destruct (abort_test e) as [[|]|r]; try reflexivity.
    destruct (quoted e); reflexivity.
Qed.

Lemma container_cases (fmt codec : string) :
  (fmt = "webm" /\ container fmt codec
     = (".webm", [mkAcceptType ("WebM Video (" ++ codec ++ ")")
                               [("video/webm", [".webm"])]]))
  \/ (fmt = "mov" /\ container fmt codec
        = (".mov", [mkAcceptType ("MOV Video (" ++ codec ++ ")")
                                 [("video/quicktime", [".mov"])]]))
  \/ (fmt = "mkv" /\ container fmt codec
        = (".mkv", [mkAcceptType ("MKV Video (" ++ codec ++ ")")
                                 [("video/x-matroska", [".mkv"])]]))
  \/ (fmt <> "webm" /\ fmt <> "mov" /\ fmt <> "mkv" /\ container fmt codec
        = (".mp4", [mkAcceptType ("MP4 Video (" ++ codec ++ ")")
                                 [("video/mp4", [".mp4"])]])).
Proof.
  unfold container.
  destruct (String.eqb_spec fmt "webm") as [->|H1]; [left; split; reflexivity|].
  destruct (String.eqb_spec fmt "mov") as [->|H2];
    [right; left; split; reflexivity|].
  destruct (String.eqb_spec fmt "mkv") as [->|H3];
    [right; right; left; split; reflexivity|].
  right; right; right. repeat split; assumption.
Qed.

End NamingFacts.

(** C8: once the settings dialog is confirmed and the flow asks the host
    for a destination, the extension and the MIME descriptor it hands
    over follow the table on the settings' own format: webm gives .webm
    and video/webm, mov gives .mov and video/quicktime, mkv gives .mkv
    and video/x-matroska, and every other format string gives .mp4 and
    video/mp4. *)
Theorem C8_container_table
        (env : Flow.Env) (vs : Flow.VideoSettings) (d : option string)
        (picker : Flow.PickerOptions -> Flow.Outcome Flow.FileHandle) :
  Flow.videoSettingsDialog_show env = Some vs ->
  Flow.doc_name env = Flow.Returned d ->
  Flow.window_showSaveFilePicker env = Some picker ->
  exists request,
    Flow.picker_request
      (snd (Flow.exec (Flow.show_videoSettingsDialog env))) = Some request
    /\ (Flow.format vs = "webm"%string ->
        Flow.suggestedName request = VideoNaming.suggested d ".webm"
        /\ VideoNaming.mimes (Flow.types request)
           = [("video/webm", [".webm"])]%string)
    /\ (Flow.format vs = "mov"%string ->
        Flow.suggestedName request = VideoNaming.suggested d ".mov"
        /\ VideoNaming.mimes (Flow.types request)
           = [("video/quicktime", [".mov"])]%string)
    /\ (Flow.format vs = "mkv"%string ->
        Flow.suggestedName request = VideoNaming.suggested d ".mkv"
        /\ VideoNaming.mimes (Flow.types request)
           = [("video/x-matroska", [".mkv"])]%string)
    /\ (Flow.format vs <> "webm"%string -> Flow.format vs <> "mov"%string ->
        Flow.format vs <> "mkv"%string ->
        Flow.suggestedName request = VideoNaming.suggested d ".mp4"
        /\ VideoNaming.mimes (Flow.types request)
           = [("video/mp4", [".mp4"])]%string).
Proof.
  intros Hd Hn Hp. eexists. split.
  - apply (picker_request_of_flow env Hd Hn Hp).
  - cbn [Flow.suggestedName Flow.types].
    destruct (container_cases (Flow.format vs)
                              (VideoNaming.codecName (Flow.codec vs)))
      as [[E ->]|[[E ->]|[[E ->]|(H1 & H2 & H3 & ->)]]];
      cbn [fst snd]; repeat split; intros;
      first [reflexivity | congruence | contradiction].
Qed.

Lemma C8_container_table_witness :
  (exists request,
     Flow.picker_request
       (snd (Flow.exec (Flow.show_videoSettingsDialog Examples.env_ok)))
     = Some request
     /\ Flow.suggestedName request = "scene.mkv"%string
     /\ VideoNaming.mimes (Flow.types request)
        = [("video/x-matroska", [".mkv"])]%string)
  /\ (exists request,
        Flow.picker_request
          (snd (Flow.exec (Flow.show_videoSettingsDialog Examples.env_avi)))
        = Some request
        /\ Flow.suggestedName request = "scene.mp4"%string
        /\ VideoNaming.mimes (Flow.types request)
           = [("video/mp4", [".mp4"])]%string).
Proof.
  split.
  - destruct (@C8_container_table
                Examples.env_ok Examples.settings_mkv_h265
                (Some "scene.ply"%string)
                (fun _ => Flow.Returned (Flow.fileHandle "scene.mkv"))
                eq_refl eq_refl eq_refl)
      as (request & Hreq & _ & _ & Hmkv & _).
    exists request. split; [exact Hreq|]. apply Hmkv. reflexivity.
  - destruct (@C8_container_table
                Examples.env_avi Examples.settings_avi
                (Some "scene.ply"%string)
                (fun _ => Flow.Returned (Flow.fileHandle "scene.mkv"))
                eq_refl eq_refl eq_refl)
      as (request & Hreq & _ & _ & _ & Hother).
    exists request. split; [exact Hreq|]. apply Hother; discriminate.
Defined.

(** C9: the code departs from the claim.  [removeExtension] takes the
    length of the extension from [path.getExtension], which looks only at
    the part of the name before a question mark, and cuts that many
    characters from the end of the whole name.  For the document name
    "room?final.ply" and format mkv the flow suggests "room?fina.mkv",
    while the name with its extension stripped, plus the extension of the
    format, is "room?final.mkv". *)
Lemma C9_question_mark_name_is_cut :
  let log := snd (Flow.exec (Flow.show_videoSettingsDialog
                               Examples.env_question_mark)) in
  Flow.doc_name Examples.env_question_mark
  = Flow.Returned (Some "room?final.ply"%string)
  /\ (exists request,
        Flow.picker_request log = Some request
        /\ Flow.suggestedName request = "room?fina.mkv"%string)
  /\ (Reading.spec_strip_extension "room?final.ply" ++ ".mkv")%string
     = "room?final.mkv"%string.
Proof.
  intros log. split; [reflexivity|]. split; [|reflexivity].
  eexists. split; reflexivity.
Qed.

(** The instance named by C9 does come out as the claim says: with
    format mkv, codec h265 and document name "scene.ply" the suggested
    name is "scene.mkv", the MIME type video/x-matroska and the codec
    label "H.265". *)
Lemma suggested_filename_scene_ply :
  exists request,
    Flow.picker_request
      (snd (Flow.exec (Flow.show_videoSettingsDialog Examples.env_ok)))
    = Some request
    /\ Flow.suggestedName request = "scene.mkv"%string
    /\ Flow.suggestedName request
       = (Reading.spec_strip_extension "scene.ply" ++ ".mkv")%string
    /\ VideoNaming.mimes (Flow.types request)
       = [("video/x-matroska", [".mkv"])]%string
    /\ map VideoNaming.description (Flow.types request)
       = ["MKV Video (H.265)"%string].
Proof.
  eexists. repeat split.
Qed.

(** ** Viewer-only construction *)

Section EditorFacts.

Import Editor.

Lemma listening_In (name : string) (table : list (string * Handler))
      (h : Handler) :
  In h (listening name table) -> In h (map snd table).
Proof.
  unfold listening. intros H. apply in_map_iff in H as [entry [E H]].
  apply filter_In in H as [H _]. apply in_map_iff. exists entry. auto.
Qed.

Lemma handlers_for_In (ui : EditorUI) (o : Occurrence) (h : Handler) :
  In h (handlers_for ui o) ->
  In h (map snd (subscriptions ui ++ window_listeners ui)).
Proof.
  rewrite map_app, in_app_iff.
  destruct o; simpl; intros H; apply listening_In in H; auto.
Qed.

(** Without [updateNote] among the registrations, no occurrence runs it. *)
Lemma handlers_run_no_updateNote (ui : EditorUI) (os : list Occurrence) :
  updateNote_registrations ui = [] ->
  ~ In UpdateNote (handlers_run ui os).
Proof.
  intros Hreg Hin. unfold handlers_run in Hin.
  apply in_flat_map in Hin as [o [_ Hin]].
  apply handlers_for_In, in_map_iff in Hin as [[name h] [E Hin]].
  simpl in E. subst h.
  assert (Hf : In (name, UpdateNote) (updateNote_registrations ui)).
  { apply filter_In. split; [exact Hin | reflexivity]. }
  rewrite Hreg in Hf. exact Hf.
Qed.

(** An annotation that was never created stays absent. *)
Lemma run_handler_note_absent args host (st : State) (h : Handler) :
  note st = None -> note (run_handler args host st h) = None.
Proof.
  intros H. destruct h, args; simpl; try exact H; rewrite H; reflexivity.
Qed.

Lemma deliver_note_absent (ui : EditorUI) (st : State) (o : Occurrence) :
  note st = None -> note (deliver ui st o) = None.
Proof.
  unfold deliver. generalize (handlers_for ui o). intros hs.
  revert st; induction hs as [|h hs IH]; intros st H; simpl.
  - exact H.
  - apply IH, run_handler_note_absent, H.
Qed.

Lemma run_note_absent (ui : EditorUI) (os : list Occurrence) (st : State) :
  note st = None -> note (run ui os st) = None.
Proof.
  revert st; induction os as [|o os IH]; intros st H; simpl.
  - exact H.
  - apply IH, deliver_note_absent, H.
Qed.

End EditorFacts.

(** C10: the camera preset buttons, the annotation element and the
    prerender and resize registrations of [updateNote] exist when the
    editor is constructed with viewerOnly = true, and only then: with
    viewerOnly false or absent there is no preset button, no annotation
    element, no registration of [updateNote], and whatever happens later
    [updateNote] never runs and the annotation stays absent. *)
Theorem C10_viewer_only_elements (options : Editor.EditorUIOptions) :
  let ui := Editor.constructor options in
  (Editor.viewerOnly options = Some true ->
     Editor.preset_buttons ui
     = [Editor.makeButton "Image 1" Editor.image1;
        Editor.makeButton "Image 2" Editor.image2;
        Editor.makeButton "Image 3" Editor.image3]
     /\ List.length (Editor.annotation_elements ui) = 1%nat
     /\ Editor.updateNote_registrations ui
        = [("prerender"%string, Editor.UpdateNote);
           ("resize"%string, Editor.UpdateNote)]
     /\ Editor.note (Editor.constructed options) = Some Annotation.created)
  /\ (Editor.viewerOnly options <> Some true ->
        Editor.preset_buttons ui = []
        /\ Editor.annotation_elements ui = []
        /\ Editor.updateNote_registrations ui = []
        /\ Editor.note (Editor.constructed options) = None
        /\ forall os : list Editor.Occurrence,
             ~ In Editor.UpdateNote (Editor.handlers_run ui os)
             /\ Editor.note (Editor.run ui os (Editor.constructed options))
                = None).
Proof.
  intros ui. unfold ui. destruct options as [[[|]|]]; simpl Editor.viewerOnly.
  - split; [intros _ | intros H; contradiction H; reflexivity].
    repeat split.
  - split; [discriminate | intros _].
    repeat split.
    + apply handlers_run_no_updateNote. reflexivity.
    + apply run_note_absent. reflexivity.
  - split; [discriminate | intros _].
    repeat split.
    + apply handlers_run_no_updateNote. reflexivity.
    + apply run_note_absent. reflexivity.
Qed.

Lemma C10_viewer_only_elements_witness :
  (List.length
     (Editor.preset_buttons
        (Editor.constructor (Editor.mkOptions (Some true)))) = 3%nat
   /\ List.length
        (Editor.annotation_elements
           (Editor.constructor (Editor.mkOptions (Some true)))) = 1%nat)
  /\ (Editor.preset_buttons (Editor.constructor Editor.default_options) = []
      /\ Editor.annotation_elements
           (Editor.constructor Editor.default_options) = []
      /\ forall os : list Editor.Occurrence,
           ~ In Editor.UpdateNote
                (Editor.handlers_run
                   (Editor.constructor Editor.default_options) os))
  /\ Editor.preset_buttons
       (Editor.constructor (Editor.mkOptions (Some false))) = [].
Proof.
  split; [|split].
  - destruct (C10_viewer_only_elements (Editor.mkOptions (Some true)))
      as [H _].
    destruct (H eq_refl) as (Hb & Ha & _).
    split; [rewrite Hb; reflexivity | exact Ha].
  - destruct (C10_viewer_only_elements Editor.default_options) as [_ H].
    assert (Hne : Editor.viewerOnly Editor.default_options <> Some true)
      by discriminate.
    destruct (H Hne) as (Hb & Ha & _ & _ & Hrun).
    split; [exact Hb|]. split; [exact Ha|].
    intros os. apply (Hrun os).
  - destruct (C10_viewer_only_elements (Editor.mkOptions (Some false)))
      as [_ H].
    assert (Hne : Editor.viewerOnly (Editor.mkOptions (Some false))
                  <> Some true) by discriminate.
    apply (H Hne).
Defined.

(** * Further properties *)

(** ** Spinner: nested operations *)

Section SpinnerNesting.

Import Spinner.

Lemma lowest_firstn (es : list Event) (n : nat) :
  lowest es <= lowest (firstn n es).
Proof.
  revert n; induction es as [|e es IH]; intros n.
  - destruct n; simpl; lia.
  - destruct n as [|n]; [apply lowest_nonpos|].
    simpl firstn. simpl lowest. specialize (IH n). lia.
Qed.

Lemma count_run_nested (es : list Event) (s : State) :
  wf s -> lowest es = 0 ->
  spinnerCount (run es s) = spinnerCount s + balance es.
Proof.
  intros [Hc _] Hl. rewrite count_run by exact Hc. rewrite Hl. lia.
Qed.

Lemma wf_eq (s s' : State) :
  wf s -> wf s' -> spinnerCount s = spinnerCount s' -> s = s'.
Proof.
  destruct s as [c h], s' as [c' h']. unfold wf. simpl.
  intros [_ ->] [_ ->] ->. reflexivity.
Qed.

End SpinnerNesting.

(** A [stopSpinner] that arrives while nothing is running changes
    nothing: the count stays 0 and the spinner stays hidden. *)
Theorem stopSpinner_at_zero (s : Spinner.State) :
  Spinner.wf s -> Spinner.spinnerCount s = 0 -> Spinner.stopSpinner s = s.
Proof.
  intros H H0. apply wf_eq; [apply (wf_handle Spinner.Stop H) | exact H|].
  simpl. rewrite H0. reflexivity.
Qed.

Lemma stopSpinner_at_zero_witness :
  Spinner.stopSpinner Spinner.initial = Spinner.initial.
Proof.
  apply stopSpinner_at_zero; [apply wf_initial | reflexivity].
Defined.

(** A well-nested group of operations (no prefix with more stops than
    starts, as many stops as starts in all) leaves the spinner exactly as
    it found it. *)
Theorem spinner_nested_group_restores (es : list Spinner.Event)
        (s : Spinner.State) :
  Spinner.wf s -> Spinner.lowest es = 0 ->
  Spinner.starts es = Spinner.stops es ->
  Spinner.run es s = s.
Proof.
  intros H Hl Hb. apply wf_eq; [apply wf_run, H | exact H|].
  rewrite count_run_nested by assumption. unfold Spinner.balance. lia.
Qed.

Lemma spinner_nested_group_restores_witness :
  Spinner.run [Spinner.Start; Spinner.Start; Spinner.Stop; Spinner.Start;
               Spinner.Stop; Spinner.Stop] Spinner.initial
  = Spinner.initial.
Proof.
  apply spinner_nested_group_restores;
    [apply wf_initial | reflexivity | reflexivity].
Defined.

(** While an outer operation shows the spinner, well-nested inner
    operations never hide it, at any point of their course. *)
Theorem spinner_stays_visible_while_nested (es : list Spinner.Event)
        (s : Spinner.State) (n : nat) :
  Spinner.wf s -> Spinner.lowest es = 0 -> Spinner.visible s = true ->
  Spinner.visible (Spinner.run (firstn n es) s) = true.
Proof.
  intros H Hl Hv.
  assert (Hn : Spinner.lowest (firstn n es) = 0).
  { pose proof (lowest_firstn es n). pose proof (lowest_nonpos (firstn n es)).
    lia. }
  apply (visible_iff_positive (wf_run (firstn n es) H)).
  rewrite count_run_nested by assumption.
  apply (visible_iff_positive H) in Hv.
  pose proof (lowest_lower_bound (firstn n es) (List.length (firstn n es)))
    as Hb.
  rewrite firstn_all in Hb. lia.
Qed.

Lemma spinner_stays_visible_while_nested_witness :
  Spinner.visible
    (Spinner.run (firstn 2 [Spinner.Start; Spinner.Stop; Spinner.Start;
                            Spinner.Stop])
                 (Spinner.startSpinner Spinner.initial)) = true.
Proof.
  apply spinner_stays_visible_while_nested;
    [apply (wf_handle Spinner.Start wf_initial) | reflexivity | reflexivity].
Defined.

(** ** Progress: sequences of events *)

Section ProgressSequences.

Import Progress Reading.



End ProgressSequences.


(** An update that carries a text and a value does what the two single
    updates do, in either order; and repeating an update changes nothing
    more. *)
Theorem progressUpdate_splits (t : string) (v : float)
        (options : Progress.Options) (w : Progress.Widget) :
  let both := Progress.mkOptions (Some t) (Some v) in
  let only_text := Progress.mkOptions (Some t) None in
  let only_value := Progress.mkOptions None (Some v) in
  Progress.progressUpdate both w
  = Progress.progressUpdate only_value (Progress.progressUpdate only_text w)
  /\ Progress.progressUpdate both w
     = Progress.progressUpdate only_text
         (Progress.progressUpdate only_value w)
  /\ Progress.progressUpdate options (Progress.progressUpdate options w)
     = Progress.progressUpdate options w.
Proof.
  intros both only_text only_value.
  rewrite !progressUpdate_unfold. simpl.
  destruct options as [[t'|] [v'|]]; simpl; repeat split.
Qed.

(** ** Annotation: hiding, NaN, repeated ticks *)

(** Whenever [updateNote] hides the annotation it leaves its position
    alone: [left] and [top] keep the values of the last time it was
    shown. *)
Theorem updateNote_hide_keeps_position (h : Annotation.Host)
        (n : Annotation.Note) :
  Annotation.display (Annotation.updateNote h n) = Annotation.DisplayNone ->
  Annotation.style_left (Annotation.updateNote h n) = Annotation.style_left n
  /\ Annotation.style_top (Annotation.updateNote h n)
     = Annotation.style_top n.
Proof.
  unfold Annotation.updateNote.
  destruct (Annotation.capability h) as [project|]; cbv zeta.
  - destruct (Annotation.inside _); simpl; [discriminate | split; reflexivity].
  - simpl. split; reflexivity.
Qed.

Lemma updateNote_hide_keeps_position_witness :
  let n := Annotation.mkNote Annotation.DisplayFlex (Some 410%float)
                             (Some 170%float)
                             (Annotation.mkVec3 0.5 0.25 0.5) in
  let h := Annotation.mkHost None (Annotation.mkRect 0 0 800 600) in
  Annotation.style_left (Annotation.updateNote h n) = Some 410%float
  /\ Annotation.style_top (Annotation.updateNote h n) = Some 170%float.
Proof.
  intros n h. apply (@updateNote_hide_keeps_position h n). reflexivity.
Defined.

(** A projection with a NaN in any coordinate hides the annotation. *)
Theorem updateNote_nan_hides (h : Annotation.Host) (n : Annotation.Note)
        (project : Annotation.Vec3 -> Annotation.Vec3 -> Annotation.Vec3) :
  Annotation.capability h = Some project ->
  (let p := project Annotation.noteWorld (Annotation.noteScreen n) in
   Annotation.x p = nan \/ Annotation.y p = nan \/ Annotation.z p = nan) ->
  Annotation.display (Annotation.updateNote h n) = Annotation.DisplayNone.
Proof.
  intros Hcap Hnan. cbv zeta in Hnan.
  assert (Hin : Annotation.inside
                  (project Annotation.noteWorld (Annotation.noteScreen n))
                = false).
  { unfold Annotation.inside.
    destruct Hnan as [E|[E|E]]; rewrite E;
      change (0 <=? nan)%float with false;
      rewrite ?andb_false_r; reflexivity. }
  rewrite (@updateNote_outside h n project Hcap Hin). reflexivity.
Qed.

Lemma updateNote_nan_hides_witness :
  let project := fun (_ _ : Annotation.Vec3) =>
                   Annotation.mkVec3 0.5%float nan 0.5%float in
  let h := Annotation.mkHost
             (Some (Annotation.mkScene
                      (Some (Annotation.mkCamera (Some project)))))
             (Annotation.mkRect 0 0 800 600) in
  Annotation.display (Annotation.updateNote h Annotation.created)
  = Annotation.DisplayNone.
Proof.
  intros project h.
  apply (@updateNote_nan_hides h Annotation.created project eq_refl).
  right; left; reflexivity.
Defined.

(** When the projection overwrites the whole of its output vector, a
    second [updateNote] with the same host changes nothing: a resize
    right after a tick leaves the annotation where the tick put it. *)
Theorem updateNote_idempotent (h : Annotation.Host) (n : Annotation.Note) :
  (forall project, Annotation.capability h = Some project ->
     forall w a b, project w a = project w b) ->
  Annotation.updateNote h (Annotation.updateNote h n)
  = Annotation.updateNote h n.
Proof.
  intros Hover. unfold Annotation.updateNote.
  destruct (Annotation.capability h) as [project|] eqn:Hcap; cbv zeta.
  - specialize (Hover project eq_refl).
    destruct (Annotation.inside
                (project Annotation.noteWorld (Annotation.noteScreen n)))
      eqn:Hin; simpl;
      rewrite (Hover Annotation.noteWorld _ (Annotation.noteScreen n)), Hin;
      reflexivity.
  - reflexivity.
Qed.

Lemma updateNote_idempotent_witness :
  let project := fun (_ _ : Annotation.Vec3) =>
                   Annotation.mkVec3 0.5%float 0.25%float 0.5%float in
  let h := Annotation.mkHost
             (Some (Annotation.mkScene
                      (Some (Annotation.mkCamera (Some project)))))
             (Annotation.mkRect 10 20 800 600) in
  Annotation.updateNote h (Annotation.updateNote h Annotation.created)
  = Annotation.updateNote h Annotation.created.
Proof.
  intros project h. apply updateNote_idempotent.
  intros project' H. injection H as <-. reflexivity.
Defined.

(** ** The bus: who changes what *)

Section BusFacts.

Import Editor Reading.
Local Open Scope string_scope.

Lemma listening_In_pair (name : string) (table : list (string * Handler))
      (h : Handler) :
  In h (listening name table) -> In (name, h) table.
Proof.
  unfold listening. intros H. apply in_map_iff in H as [[n h'] [E H]].
  apply filter_In in H as [H Hn]. simpl in *. subst h'.
  apply String.eqb_eq in Hn. subst n. exact H.
Qed.

Lemma listening_not_subscribed (name : string)
      (table : list (string * Handler)) :
  existsb (fun entry => String.eqb (fst entry) name) table = false ->
  listening name table = [].
Proof.
  unfold listening. induction table as [|entry table IH]; simpl; [reflexivity|].
  intros H. apply orb_false_iff in H as [-> H]. apply IH, H.
Qed.

(** Handlers other than the spinner's leave the spinner alone, and so
    on for the progress widget and the annotation. *)
Lemma fold_spinner args host (hs : list Handler) (st : State) :
  ~ In StartSpinner hs -> ~ In StopSpinner hs ->
  spinner (fold_left (run_handler args host) hs st) = spinner st.
Proof.
  revert st; induction hs as [|h hs IH]; intros st H1 H2; simpl;
    [reflexivity|].
  rewrite IH;
    [| intros H; apply H1; right; exact H | intros H; apply H2; right; exact H].
  destruct h; try (destruct args; reflexivity);
    [contradiction H1 | contradiction H2]; left; reflexivity.
Qed.

Lemma fold_progress args host (hs : list Handler) (st : State) :
  ~ In ProgressStart hs -> ~ In ProgressUpdate hs -> ~ In ProgressEnd hs ->
  progress (fold_left (run_handler args host) hs st) = progress st.
Proof.
  revert st; induction hs as [|h hs IH]; intros st H1 H2 H3; simpl;
    [reflexivity|].
  rewrite IH;
    [| intros H; apply H1; right; exact H | intros H; apply H2; right; exact H
     | intros H; apply H3; right; exact H].
  destruct h; try (destruct args; reflexivity);
    [contradiction H1 | contradiction H2 | contradiction H3];
    left; reflexivity.
Qed.

Lemma fold_note args host (hs : list Handler) (st : State) :
  ~ In UpdateNote hs ->
  note (fold_left (run_handler args host) hs st) = note st.
Proof.
  revert st; induction hs as [|h hs IH]; intros st H1; simpl; [reflexivity|].
  rewrite IH by (intros H; apply H1; right; exact H).
  destruct h; try (destruct args; reflexivity);
    contradiction H1; left; reflexivity.
Qed.

(** Under which name each handler is registered. *)
Lemma registered_name (options : EditorUIOptions) (name : string)
      (h : Handler) :
  In (name, h) (subscriptions (constructor options)) ->
  match h with
  | StartSpinner => name = "startSpinner"
  | StopSpinner => name = "stopSpinner"
  | ProgressStart => name = "progressStart"
  | ProgressUpdate => name = "progressUpdate"
  | ProgressEnd => name = "progressEnd"
  | UpdateNote => name = "prerender" /\ flag options = true
  | _ => True
  end.
Proof.
  unfold constructor. destruct (flag options); simpl; intros H;
    repeat (destruct H as [H|H]; [injection H as <- <-; auto|]);
    contradiction H.
Qed.

Lemma registered_window (options : EditorUIOptions) (name : string)
      (h : Handler) :
  In (name, h) (window_listeners (constructor options)) ->
  h = UpdateNote /\ name = "resize" /\ flag options = true.
Proof.
  unfold constructor. destruct (flag options); simpl; intros H;
    repeat (destruct H as [H|H]; [injection H as <- <-; auto|]);
    contradiction H.
Qed.

End BusFacts.

(** An occurrence that is no spinner event leaves the spinner alone. *)
Lemma deliver_spinner_frame
      (options : Editor.EditorUIOptions) (o : Editor.Occurrence)
      (st : Editor.State) :
  Reading.spinner_events o = [] ->
  Editor.spinner (Editor.deliver (Editor.constructor options) st o)
  = Editor.spinner st.
Proof.
  intros Ho. unfold Editor.deliver.
  apply fold_spinner; intros Hin; destruct o as [name args host|name host];
    simpl in Hin; apply listening_In_pair in Hin;
    try (apply registered_window in Hin as [E _]; discriminate E);
    apply registered_name in Hin; subst name; discriminate Ho.
Qed.

(** Each overlay is changed by its own events only, in viewer mode and
    in editor mode alike: the spinner by startSpinner and stopSpinner,
    the progress widget by the three progress events, the annotation by
    prerender ticks and window resizes. *)
Theorem overlays_change_only_on_their_events
        (options : Editor.EditorUIOptions) (o : Editor.Occurrence)
        (st : Editor.State) :
  let st' := Editor.deliver (Editor.constructor options) st o in
  (Reading.spinner_events o = [] -> Editor.spinner st' = Editor.spinner st)
  /\ (Reading.is_progress o = false ->
      Editor.progress st' = Editor.progress st)
  /\ (Editor.is_tick o = false -> Editor.note st' = Editor.note st).
Proof.
  intros st'. unfold st'.
  split; [apply deliver_spinner_frame|].
  unfold Editor.deliver. split; intros Ho.
  - apply fold_progress; intros Hin;
      destruct o as [name args host|name host];
      simpl in Hin; apply listening_In_pair in Hin;
      try (apply registered_window in Hin as [E _]; discriminate E);
      apply registered_name in Hin; subst name; discriminate Ho.
  - apply fold_note; intros Hin; destruct o as [name args host|name host];
      simpl in Hin; apply listening_In_pair in Hin.
    + apply registered_name in Hin as [-> _]. discriminate Ho.
    + apply registered_window in Hin as (_ & -> & _). discriminate Ho.
Qed.

Lemma overlays_change_only_on_their_events_witness :
  let options := Editor.mkOptions (Some true) in
  let host := Annotation.mkHost None (Annotation.mkRect 0 0 800 600) in
  let st := Editor.constructed options in
  Editor.spinner (Editor.deliver (Editor.constructor options) st
                                 (Editor.prerender host))
  = Editor.spinner st
  /\ Editor.note (Editor.deliver (Editor.constructor options) st
                                 (Editor.Fire "startSpinner" Editor.NoArgs
                                              host))
     = Editor.note st.
Proof.
  intros options host st. split.
  - destruct (overlays_change_only_on_their_events
                options (Editor.prerender host) st) as (H & _ & _).
    apply H. reflexivity.
  - destruct (overlays_change_only_on_their_events
                options (Editor.Fire "startSpinner" Editor.NoArgs host) st)
      as (_ & _ & H).
    apply H. reflexivity.
Defined.

Section BusSpinner.

Import Editor Reading.
Local Open Scope string_scope.

Lemma deliver_spinner (options : EditorUIOptions) (o : Occurrence)
      (st : State) :
  spinner (deliver (constructor options) st o)
  = fold_left Spinner.handle (spinner_events o) (spinner st).
Proof.
  destruct o as [name args host|name host].
  - destruct (String.eqb_spec name "startSpinner") as [->|H1].
    { unfold deliver, constructor. destruct (flag options); reflexivity. }
    destruct (String.eqb_spec name "stopSpinner") as [->|H2].
    { unfold deliver, constructor. destruct (flag options); reflexivity. }
    assert (E : spinner_events (Fire name args host) = []).
    { simpl. apply String.eqb_neq in H1, H2. rewrite H1, H2. reflexivity. }
    rewrite E.
    apply deliver_spinner_frame, E.
  - apply deliver_spinner_frame. reflexivity.
Qed.

End BusSpinner.

(** Whatever else happens on the bus or on the window, in either mode,
    the spinner after a sequence of occurrences is the spinner after its
    startSpinner and stopSpinner events alone. *)
Theorem bus_spinner_follows_its_events
        (options : Editor.EditorUIOptions) (os : list Editor.Occurrence)
        (st : Editor.State) :
  Editor.spinner (Editor.run (Editor.constructor options) os st)
  = Spinner.run (flat_map Reading.spinner_events os) (Editor.spinner st).
Proof.
  revert st; induction os as [|o os IH]; intros st; [reflexivity|].
  change (Editor.run (Editor.constructor options) (o :: os) st)
    with (Editor.run (Editor.constructor options) os
                     (Editor.deliver (Editor.constructor options) st o)).
  rewrite IH, deliver_spinner. cbn [flat_map].
  unfold Spinner.run. rewrite fold_left_app. reflexivity.
Qed.

(** An event nobody subscribed to (such as camera.setPose, which the
    preset buttons fire) changes none of the overlays. *)
Theorem unsubscribed_event_changes_nothing
        (ui : Editor.EditorUI) (name : string) (args : Editor.Payload)
        (host : Annotation.Host) (st : Editor.State) :
  Reading.subscribed ui name = false ->
  Editor.deliver ui st (Editor.Fire name args host) = st.
Proof.
  intros H. unfold Editor.deliver. cbn [Editor.handlers_for].
  rewrite (listening_not_subscribed _ _ H). reflexivity.
Qed.

Lemma unsubscribed_event_changes_nothing_witness :
  let options := Editor.mkOptions (Some true) in
  let host := Annotation.mkHost None (Annotation.mkRect 0 0 800 600) in
  Editor.deliver (Editor.constructor options) (Editor.constructed options)
                 (Editor.Fire "camera.setPose" Editor.OtherArgs host)
  = Editor.constructed options.
Proof.
  intros options host. apply unsubscribed_event_changes_nothing. reflexivity.
Defined.

(** In editor mode a prerender tick or a window resize changes none of
    the overlays. *)
Theorem editor_mode_ticks_change_nothing
        (options : Editor.EditorUIOptions) (o : Editor.Occurrence)
        (st : Editor.State) :
  Editor.flag options = false -> Editor.is_tick o = true ->
  Editor.deliver (Editor.constructor options) st o = st.
Proof.
  intros Hf Ho. unfold Editor.deliver, Editor.constructor. rewrite Hf.
  destruct o as [name args host|name host]; simpl in Ho;
    apply String.eqb_eq in Ho; subst name; reflexivity.
Qed.

Lemma editor_mode_ticks_change_nothing_witness :
  let host := Annotation.mkHost None (Annotation.mkRect 0 0 800 600) in
  Editor.deliver (Editor.constructor Editor.default_options)
                 (Editor.constructed Editor.default_options)
                 (Editor.prerender host)
  = Editor.constructed Editor.default_options.
Proof.
  intros host. apply editor_mode_ticks_change_nothing; reflexivity.
Defined.

(** ** Video flow: what is invoked, and when *)

Section VideoFlowFacts.

Import VideoNaming Flow.
Local Open Scope string_scope.

(** Case analysis over everything the outside can answer. *)
Ltac video_cases :=
  unfold exec, show_videoSettingsDialog, try_catch, render_video_to_file,
    on_error, bind, call, ret, throw;
  cbn [app];
  repeat (match goal with
          | |- context [match ?x with _ => _ end] =>
              lazymatch x with
              | context [match _ with _ => _ end] => fail
              | _ => destruct x eqn:?
              end
          end; cbn [fst snd app]).


(** A run of the video flow shows at most one popup. *)
Lemma video_flow_popups_le (env : Env) :
  (List.length (popups (snd (exec (show_videoSettingsDialog env)))) <= 1)%nat.
Proof.
  destruct (videoSettingsDialog_show env) as [vs|] eqn:Hd.
  - destruct (try_outcome env vs) as [[]|e] eqn:Ht.
    + unfold try_outcome in Ht.
      unfold exec, show_videoSettingsDialog, bind, call, try_catch.
      cbn [app]. rewrite Hd.
      pose proof (popups_try_block env vs) as Hp.
      destruct (render_video_to_file env vs [VideoSettingsDialog_show])
        as [[[]|e'] log']; [|discriminate Ht].
      cbn [snd] in *. rewrite Hp. simpl. lia.
    + rewrite (show_videoSettingsDialog_catch env Hd Ht).
      pose proof (popups_try_block env vs) as Hp.
      unfold on_error, call, ret, throw.
      destruct (abort_test e) as [[|]|r]; [|destruct (quoted e)|];
        cbn [snd]; rewrite ?popups_app, Hp; simpl; lia.
  - unfold exec, show_videoSettingsDialog, bind, call. cbn [app].
    rewrite Hd. simpl. lia.
Qed.

(** [render.video] is only ever invoked with the settings the dialog
    gave, after [doc.name] answered, and with a destination that is
    either nothing, on a host without a file picker, or the writable
    created from the very handle the picker returned. *)
Lemma render_video_invocations (env : Env) (vs : VideoSettings)
      (dest : option Writable) :
  In (Invoke_render_video vs dest)
     (snd (exec (show_videoSettingsDialog env))) ->
  videoSettingsDialog_show env = Some vs
  /\ (exists d, doc_name env = Returned d)
  /\ match dest with
     | None => window_showSaveFilePicker env = None
     | Some w =>
         exists picker request h,
           window_showSaveFilePicker env = Some picker
           /\ picker_request (snd (exec (show_videoSettingsDialog env)))
              = Some request
           /\ picker request = Returned h
           /\ createWritable env h = Returned w
     end.
Proof.
  video_cases; intros Hin;
    repeat (destruct Hin as [Hin|Hin]; try discriminate Hin);
    try contradiction;
    inversion Hin; subst; clear Hin;
    (split; [reflexivity|]); (split; [eexists; reflexivity|]);
    try reflexivity; try congruence;
    do 3 eexists; repeat split; eassumption.
Qed.

(** [render.video] is invoked at most once in a run. *)
Lemma render_video_at_most_once (env : Env) :
  (List.length (filter is_render_video
                       (snd (exec (show_videoSettingsDialog env)))) <= 1)%nat.
Proof.
  video_cases; simpl; lia.
Qed.

(** A cancelled settings dialog ends the flow at once: no command is
    invoked and the file picker is not asked. *)
Lemma video_dialog_cancelled (env : Env) :
  videoSettingsDialog_show env = None ->
  exec (show_videoSettingsDialog env) = (Returned tt, [VideoSettingsDialog_show]).
Proof.
  intros Hd. unfold exec, show_videoSettingsDialog, bind, call. cbn [app].
  rewrite Hd. reflexivity.
Qed.

(** On a host without [showSaveFilePicker] the flow goes straight from
    [doc.name] to [render.video], which gets no destination. *)
Lemma video_without_picker (env : Env) (vs : VideoSettings)
      (d : option string) :
  videoSettingsDialog_show env = Some vs ->
  doc_name env = Returned d ->
  window_showSaveFilePicker env = None ->
  let log := snd (exec (show_videoSettingsDialog env)) in
  firstn 3 log
  = [VideoSettingsDialog_show; Invoke_doc_name; Invoke_render_video vs None]
  /\ picker_request log = None.
Proof.
  intros Hd Hn Hp log. unfold log.
  unfold exec, show_videoSettingsDialog, try_catch, render_video_to_file,
    bind, call, ret. cbn [app]. rewrite Hd, Hn, Hp.
  destruct (container (format vs) (codecName (codec vs))) as [ext types].
  destruct (render_video env vs None) as [[]|e]; cbn [fst snd app];
    [split; reflexivity|].
  unfold on_error, call, ret, throw.
  destruct (abort_test e) as [[|]|r]; [|destruct (quoted e)|];
    split; reflexivity.
Qed.

(** When every step succeeds the flow does exactly five things, in this
    order: show the dialog, ask the document name, ask the picker, create
    the writable of the returned handle, and invoke [render.video] with
    the settings and that writable; no popup is shown. *)
Lemma video_success_log (env : Env) (vs : VideoSettings)
      (d : option string) picker (h : FileHandle) (w : Writable) :
  videoSettingsDialog_show env = Some vs ->
  doc_name env = Returned d ->
  window_showSaveFilePicker env = Some picker ->
  (forall request, picker request = Returned h) ->
  createWritable env h = Returned w ->
  render_video env vs (Some w) = Returned tt ->
  exists request,
    exec (show_videoSettingsDialog env)
    = (Returned tt,
       [VideoSettingsDialog_show; Invoke_doc_name;
        ShowSaveFilePicker request; CreateWritable h;
        Invoke_render_video vs (Some w)]).
Proof.
  intros Hd Hn Hp Hpk Hw Hr.
  unfold exec, show_videoSettingsDialog, try_catch, render_video_to_file,
    bind, call, ret. cbn [app]. rewrite Hd, Hn, Hp.
  destruct (container (format vs) (codecName (codec vs))) as [ext types].
  rewrite Hpk, Hw. cbn [fst snd app]. rewrite Hr.
  eexists. reflexivity.
Qed.

End VideoFlowFacts.

Lemma video_dialog_cancelled_witness :
  let env := Flow.mkEnv (fun key => key) (Flow.Returned None)
                        (fun _ => None) (fun _ => Flow.Returned tt)
                        None (Flow.Returned None) None
                        (fun _ => Flow.Threw Flow.ThrownUndefined)
                        (fun _ _ => Flow.Threw Flow.ThrownUndefined) in
  Flow.exec (Flow.show_videoSettingsDialog env)
  = (Flow.Returned tt, [Flow.VideoSettingsDialog_show]).
Proof.
  intros env. apply video_dialog_cancelled. reflexivity.
Defined.

Lemma video_without_picker_witness :
  let log := snd (Flow.exec (Flow.show_videoSettingsDialog
                               Examples.env_encoder_aborted)) in
  firstn 3 log
  = [Flow.VideoSettingsDialog_show; Flow.Invoke_doc_name;
     Flow.Invoke_render_video Examples.settings_mkv_h265 None]
  /\ Flow.picker_request log = None.
Proof.
  apply (@video_without_picker Examples.env_encoder_aborted
           Examples.settings_mkv_h265 (Some "scene.ply"%string));
    reflexivity.
Defined.

Lemma video_success_log_witness :
  exists request,
    Flow.exec (Flow.show_videoSettingsDialog Examples.env_ok)
    = (Flow.Returned tt,
       [Flow.VideoSettingsDialog_show; Flow.Invoke_doc_name;
        Flow.ShowSaveFilePicker request;
        Flow.CreateWritable (Flow.fileHandle "scene.mkv");
        Flow.Invoke_render_video Examples.settings_mkv_h265
                                 (Some (Flow.writable "scene.mkv"))]).
Proof.
  apply (@video_success_log Examples.env_ok Examples.settings_mkv_h265
           (Some "scene.ply"%string)
           (fun _ => Flow.Returned (Flow.fileHandle "scene.mkv"))
           (Flow.fileHandle "scene.mkv") (Flow.writable "scene.mkv"));
    reflexivity.
Defined.

Lemma render_video_invocations_witness :
  Flow.videoSettingsDialog_show Examples.env_encoder_aborted
  = Some Examples.settings_mkv_h265
  /\ Flow.window_showSaveFilePicker Examples.env_encoder_aborted = None.
Proof.
  destruct (@render_video_invocations
              Examples.env_encoder_aborted Examples.settings_mkv_h265 None)
    as (Hd & _ & Hp).
  - right; right; left; reflexivity.
  - split; [exact Hd | exact Hp].
Defined.

(** ** Publish flow: popup, result and rejections *)

Section PublishFlowFacts.

Import Flow.
Local Open Scope string_scope.

Ltac publish_cases :=
  unfold exec, show_publishSettingsDialog, bind, call, ret;
  cbn [app];
  repeat (match goal with
          | |- context [match ?x with _ => _ end] =>
              lazymatch x with
              | context [match _ with _ => _ end] => fail
              | _ => destruct x eqn:?
              end
          end; cbn [fst snd app]).

(** The publish flow shows a popup exactly when [publish.userStatus]
    answers a falsy status, and that is also exactly when it resolves
    with [false]. *)
Lemma publish_popup_iff_logged_out (env : Env) :
  let result := exec (show_publishSettingsDialog env) in
  (popups (snd result) <> [] <-> publish_userStatus env = Returned None)
  /\ (fst result = Returned ResolvedFalse
      <-> publish_userStatus env = Returned None).
Proof.
  publish_cases; split; split; intros H;
    first [reflexivity | discriminate H | contradiction H; reflexivity
          | discriminate].
Qed.

(** [scene.publish] is only invoked for a truthy user status, and only
    with the settings the dialog answered for that status. *)
Lemma scene_publish_invocations (env : Env) (settings : PublishSettings) :
  In (Invoke_scene_publish settings)
     (snd (exec (show_publishSettingsDialog env))) ->
  exists status,
    publish_userStatus env = Returned (Some status)
    /\ publishSettingsDialog_show env status = Some settings.
Proof.
  publish_cases; intros Hin;
    repeat (destruct Hin as [Hin|Hin]; try discriminate Hin);
    try contradiction;
    inversion Hin; subst; eexists; (split; [reflexivity | assumption]).
Qed.

(** The publish flow has no [catch]: it rejects exactly when
    [publish.userStatus] rejects, or when [scene.publish], once reached,
    rejects, and with that same error. *)
Lemma publish_rejects_iff (env : Env) (e : Thrown) :
  fst (exec (show_publishSettingsDialog env)) = Threw e
  <-> (publish_userStatus env = Threw e
       \/ exists status settings,
            publish_userStatus env = Returned (Some status)
            /\ publishSettingsDialog_show env status = Some settings
            /\ scene_publish env settings = Threw e).
Proof.
  publish_cases; split; intros H;
    try discriminate H;
    try (destruct H as [H|(status & settings & H1 & H2 & H3)];
         congruence);
    try (left; congruence);
    right; injection H as <-; do 2 eexists; repeat split; eassumption.
Qed.

(** A logged-in user who dismisses the settings dialog publishes
    nothing: the flow asks the status, shows the dialog and resolves. *)
Lemma publish_dialog_cancelled (env : Env) (status : UserStatus) :
  publish_userStatus env = Returned (Some status) ->
  publishSettingsDialog_show env status = None ->
  exec (show_publishSettingsDialog env)
  = (Returned ResolvedUndefined,
     [Invoke_publish_userStatus; PublishSettingsDialog_show status]).
Proof.
  intros Hs Hd. unfold exec, show_publishSettingsDialog, bind, call, ret.
  cbn [app]. rewrite Hs. cbn. rewrite Hd. reflexivity.
Qed.

End PublishFlowFacts.

Lemma scene_publish_invocations_witness :
  exists status,
    Flow.publish_userStatus Examples.env_ok = Flow.Returned (Some status)
    /\ Flow.publishSettingsDialog_show Examples.env_ok status
       = Some (Flow.publishSettings [("title", "scene")%string]).
Proof.
  apply scene_publish_invocations. right; right; left; reflexivity.
Defined.

Lemma publish_dialog_cancelled_witness :
  let env := Flow.mkEnv (fun key => key)
                        (Flow.Returned (Some (Flow.userStatus "ada")))
                        (fun _ => None) (fun _ => Flow.Returned tt)
                        None (Flow.Returned None) None
                        (fun _ => Flow.Threw Flow.ThrownUndefined)
                        (fun _ _ => Flow.Returned tt) in
  Flow.exec (Flow.show_publishSettingsDialog env)
  = (Flow.Returned Flow.ResolvedUndefined,
     [Flow.Invoke_publish_userStatus;
      Flow.PublishSettingsDialog_show (Flow.userStatus "ada")]).
Proof.
  intros env. apply (@publish_dialog_cancelled env (Flow.userStatus "ada"));
    reflexivity.
Defined.

(** ** File names, codec labels and picker types *)

Section FileNameFacts.

Import VideoNaming Reading.
Local Open Scope string_scope.

Lemma split_nonempty (c : ascii) (s : string) : split c s <> [].
Proof.
  destruct s as [|a r]; simpl; [discriminate|].
  destruct (Ascii.eqb a c); [discriminate|].
  destruct (split c r); discriminate.
Qed.

Lemma split_no_sep (c : ascii) (s : string) :
  contains c s = false -> split c s = [s].
Proof.
  induction s as [|a r IH]; simpl; [reflexivity|].
  intros H. apply orb_false_iff in H as [-> H].
  rewrite (IH H). reflexivity.
Qed.

(** Either the string is a single piece, or it ends with the separator
    followed by its last piece. *)
Lemma split_last (c : ascii) (s : string) :
  split c s = [s]
  \/ exists p q qs,
       split c s = q :: qs /\ qs <> [] /\ s = p ++ String c (last qs "").
Proof.
  induction s as [|a r IH]; [left; reflexivity|].
  simpl split. destruct (Ascii.eqb_spec a c) as [->|Hac].
  - right. destruct IH as [E|(p & q & qs & E & Hqs & Hr)].
    + exists "", "", [r]. rewrite E. repeat split. discriminate.
    + exists (String c p), "", (q :: qs). rewrite E.
      split; [reflexivity|]. split; [discriminate|].
      simpl append. rewrite Hr at 1. f_equal. f_equal.
      destruct qs; [contradiction Hqs; reflexivity | reflexivity].
  - destruct IH as [E|(p & q & qs & E & Hqs & Hr)].
    + left. rewrite E. reflexivity.
    + right. exists (String a p), (String a q), qs. rewrite E.
      repeat split; [exact Hqs|]. simpl append. rewrite Hr at 1. reflexivity.
Qed.

Lemma substring_app_prefix (p q : string) :
  substring 0 (String.length p) (p ++ q) = p.
Proof.
  induction p as [|a p IH]; simpl.
  - destruct q; reflexivity.
  - rewrite IH. reflexivity.
Qed.

Lemma substring_whole (s : string) : substring 0 (String.length s) s = s.
Proof.
  induction s as [|a s IH]; simpl; [reflexivity | rewrite IH; reflexivity].
Qed.

Lemma substring_is_prefix (n : nat) (s : string) :
  exists rest, s = substring 0 n s ++ rest.
Proof.
  revert s; induction n as [|n IH]; intros s.
  - exists s. destruct s; reflexivity.
  - destruct s as [|a s]; [exists ""; reflexivity|].
    destruct (IH s) as [rest E]. exists rest. simpl. rewrite <- E. reflexivity.
Qed.

Lemma upper_ascii_idempotent (c : ascii) :
  upper_ascii (upper_ascii c) = upper_ascii c.
Proof.
  destruct c as [[] [] [] [] [] [] [] []]; reflexivity.
Qed.

End FileNameFacts.

Section FileNameTheorems.

Import VideoNaming Reading.
Local Open Scope string_scope.

Lemma length_app (a b : string) :
  String.length (a ++ b) = (String.length a + String.length b)%nat.
Proof.
  induction a as [|c a IH]; simpl; [reflexivity | rewrite IH; reflexivity].
Qed.

(** [removeExtension] only ever cuts at the end: what it returns is a
    prefix of the file name. *)
Lemma removeExtension_prefix (filename : string) :
  exists rest, filename = removeExtension filename ++ rest.
Proof. unfold removeExtension. apply substring_is_prefix. Qed.

(** For a file name without a question mark, the name without its
    extension followed by the extension is the file name again. *)
Lemma removeExtension_getExtension (filename : string) :
  contains "?" filename = false ->
  removeExtension filename ++ getExtension filename = filename.
Proof.
  intros Hq. unfold removeExtension, getExtension.
  rewrite (split_no_sep _ _ Hq). cbn [hd].
  destruct (split_last "." filename) as [E|(p & q & qs & E & Hqs & Hf)].
  - rewrite E. cbn [last]. rewrite String.eqb_refl. cbn [String.length].
    rewrite Nat.sub_0_r, substring_whole.
    clear. induction filename as [|a s IH]; simpl;
      [reflexivity | rewrite IH; reflexivity].
  - assert (El : last (split "." filename) "" = last qs "").
    { rewrite E. destruct qs; [contradiction Hqs; reflexivity | reflexivity]. }
    rewrite El.
    destruct (String.eqb_spec (last qs "") filename) as [Heq|_].
    + exfalso. apply (f_equal String.length) in Hf.
      rewrite length_app in Hf. cbn [String.length] in Hf.
      rewrite Heq in Hf. lia.
    + change ("." ++ last qs "") with (String "." (last qs "")).
      rewrite Hf at 1 2. rewrite length_app.
      replace (String.length p + String.length (String "." (last qs ""))
               - String.length (String "." (last qs "")))%nat
        with (String.length p) by lia.
      rewrite substring_app_prefix. symmetry. exact Hf.
Qed.

(** A file name with neither a dot nor a question mark has no extension
    and is returned as it is. *)
Lemma removeExtension_no_dot (filename : string) :
  contains "." filename = false -> contains "?" filename = false ->
  getExtension filename = "" /\ removeExtension filename = filename.
Proof.
  intros Hd Hq.
  assert (E : getExtension filename = "").
  { unfold getExtension. rewrite (split_no_sep _ _ Hq). cbn [hd].
    rewrite (split_no_sep _ _ Hd). cbn [last].
    rewrite String.eqb_refl. reflexivity. }
  split; [exact E|].
  unfold removeExtension. rewrite E. cbn [String.length].
  rewrite Nat.sub_0_r. apply substring_whole.
Qed.

(** A codec that is neither one of the four keys of the table nor the
    name of a member inherited from [Object.prototype] is labelled by its
    upper-cased identifier; the name of an inherited member (constructor,
    toString, ...) is labelled by that member's text, not upper-cased. *)
Lemma codecName_unknown (codec : string) :
  (codec <> "h264" -> codec <> "h265" -> codec <> "vp9" -> codec <> "av1" ->
   inherited codec = None ->
   codecName codec = toUpperCase codec)
  /\ (forall member, inherited codec = Some member ->
                     codecName codec = member).
Proof.
  unfold codecName, codecNames, lookup. split.
  - intros H1 H2 H3 H4 Hi.
    apply String.eqb_neq in H1, H2, H3, H4. rewrite H1, H2, H3, H4, Hi.
    reflexivity.
  - intros member Hi.
    destruct (String.eqb_spec codec "h264") as [->|_]; [discriminate Hi|].
    destruct (String.eqb_spec codec "h265") as [->|_]; [discriminate Hi|].
    destruct (String.eqb_spec codec "vp9") as [->|_]; [discriminate Hi|].
    destruct (String.eqb_spec codec "av1") as [->|_]; [discriminate Hi|].
    rewrite Hi. reflexivity.
Qed.

(** Upper-casing keeps the length and is idempotent. *)
Lemma toUpperCase_idempotent (s : string) :
  toUpperCase (toUpperCase s) = toUpperCase s
  /\ String.length (toUpperCase s) = String.length s.
Proof.
  induction s as [|c s [IH1 IH2]]; simpl; [split; reflexivity|].
  rewrite upper_ascii_idempotent, IH1, IH2. split; reflexivity.
Qed.

(** Whatever the format and the codec label, the picker is offered
    exactly one file type, whose description names the codec label and
    whose single MIME type accepts exactly the extension that the
    suggested name gets. *)
Lemma container_one_type (format codecName : string) :
  exists kind mime,
    container format codecName
    = (fst (container format codecName),
       [mkAcceptType (kind ++ " Video (" ++ codecName ++ ")")
                     [(mime, [fst (container format codecName)])]]).
Proof.
  destruct (container_cases format codecName)
    as [[_ E]|[[_ E]|[[_ E]|(_ & _ & _ & E)]]]; rewrite E; cbn [fst].
  - exists "WebM", "video/webm". reflexivity.
  - exists "MOV", "video/quicktime". reflexivity.
  - exists "MKV", "video/x-matroska". reflexivity.
  - exists "MP4", "video/mp4". reflexivity.
Qed.

End FileNameTheorems.

Lemma removeExtension_getExtension_witness :
  (VideoNaming.removeExtension "archive.tar.gz"
   ++ VideoNaming.getExtension "archive.tar.gz")%string
  = "archive.tar.gz"%string.
Proof.
  apply removeExtension_getExtension. reflexivity.
Defined.

Lemma removeExtension_no_dot_witness :
  VideoNaming.getExtension "supersplat" = ""%string
  /\ VideoNaming.removeExtension "supersplat" = "supersplat"%string.
Proof.
  apply removeExtension_no_dot; reflexivity.
Defined.

Lemma codecName_unknown_witness :
  VideoNaming.codecName "prores" = VideoNaming.toUpperCase "prores"
  /\ VideoNaming.codecName "constructor"
     = "function Object() { [native code] }"%string.
Proof.
  destruct (codecName_unknown "prores") as [H _].
  destruct (codecName_unknown "constructor") as [_ H'].
  split.
  - apply H; first [discriminate | reflexivity].
  - apply H'. reflexivity.
Defined.

(** ** Camera presets *)

(** Applying a preset fires camera.setPose on the bus exactly once,
    with the pose of the table, whatever the scene is; the direct call to
    [scene.camera.setPose] is made exactly when scene, camera and method
    are all there, and then with the same position, target, speed and
    easing as the bus event; [forceRender] is set exactly when a scene
    exists, also when it has no camera. *)
Theorem applyPreset_paths_agree (key : Editor.PresetKey)
        (scene : option CameraPresets.Scene) :
  let effects := CameraPresets.applyPreset key scene in
  exists speed easing,
    filter CameraPresets.is_fire effects
    = [CameraPresets.Fire_camera_setPose
         (CameraPresets.CAMERA_TARGETS key) speed easing]
    /\ filter CameraPresets.is_call effects
       = (if CameraPresets.direct_setPose scene
          then [CameraPresets.Call_setPose
                  (CameraPresets.position (CameraPresets.CAMERA_TARGETS key))
                  (CameraPresets.target (CameraPresets.CAMERA_TARGETS key))
                  speed easing]
          else [])
    /\ (In CameraPresets.Set_forceRender effects <-> scene <> None).
Proof.
  intros effects. unfold effects, CameraPresets.applyPreset.
  exists 2.6%float, "easeIn"%string.
  destruct key, scene as [[[[[|]]|]]|]; cbn;
    (split; [reflexivity|]); (split; [reflexivity|]);
    split; intros H;
    first [discriminate
          | contradiction H; reflexivity
          | repeat (destruct H as [H|H]; try discriminate H);
            contradiction
          | auto 6 ].
Qed.

(** In viewer mode every preset has exactly one button, and a click on
    a button stops the event and then fires camera.setPose with the pose
    of that button's own key. *)
Theorem preset_buttons_cover_presets (key : Editor.PresetKey)
        (scene : option CameraPresets.Scene) :
  let buttons :=
    Editor.preset_buttons (Editor.constructor (Editor.mkOptions (Some true))) in
  List.length
    (filter (fun b => CameraPresets.key_eqb (Editor.key b) key) buttons)
  = 1%nat
  /\ forall b, In b buttons ->
       hd CameraPresets.Stop_propagation (CameraPresets.click b scene)
       = CameraPresets.Stop_propagation
       /\ filter CameraPresets.is_fire (CameraPresets.click b scene)
          = [CameraPresets.Fire_camera_setPose
               (CameraPresets.CAMERA_TARGETS (Editor.key b))
               2.6%float "easeIn"].
Proof.
  intros buttons. split.
  - destruct key; reflexivity.
  - intros b Hb. split; [reflexivity|].
    destruct Hb as [<-|[<-|[<-|[]]]];
      destruct scene as [[[[[|]]|]]|]; reflexivity.
Qed.

(** ** Widgets of the two modes *)

(** No widget is appended twice.  The navigation toolbar, the view cube,
    the popups and dialogs, the spinner and the progress widget exist in
    both modes; the editing panels, the timeline, the data panel and the
    shortcuts popup exist exactly in editor mode. *)
Theorem widgets_by_mode (options : Editor.EditorUIOptions) :
  let ui := Editor.constructor options in
  let widgets := (Editor.canvasContainer ui ++ Editor.mainContainer ui
                  ++ Editor.topContainer ui)%list in
  NoDup widgets
  /\ (forall c,
        In c [Editor.Canvas; Editor.AppLabel; Editor.CursorLabel;
              Editor.ToolsContainer; Editor.RightToolbar; Editor.ViewCube;
              Editor.CanvasContainer; Editor.Popup; Editor.ExportPopup;
              Editor.PublishSettingsDialog; Editor.ImageSettingsDialog;
              Editor.VideoSettingsDialog; Editor.AboutPopup;
              Editor.SpinnerWidget; Editor.ProgressWidget] ->
        In c widgets)
  /\ (forall c,
        In c [Editor.ScenePanel; Editor.ViewPanel; Editor.ColorPanel;
              Editor.BottomToolbar; Editor.ModeToggle; Editor.Menu;
              Editor.TimelinePanel; Editor.DataPanel;
              Editor.ShortcutsPopup] ->
        (In c widgets <-> Editor.flag options = false)).
Proof.
  intros ui widgets. unfold widgets, ui, Editor.constructor.
  destruct (Editor.flag options); cbn.
  - split; [|split].
    + repeat constructor; cbn; intuition discriminate.
    + intros c Hc. intuition (subst; auto 30).
    + intros c Hc. split; intros H; [|discriminate H].
      intuition (subst; discriminate).
  - split; [|split].
    + repeat constructor; cbn; intuition discriminate.
    + intros c Hc. intuition (subst; auto 30).
    + intros c Hc. split; intros H; [reflexivity|].
      intuition (subst; auto 30).
Qed.

(** ** Shortcuts and about popups *)

Section PopupFacts.

Import Popups.

Lemma shortcuts_absent_handle (st : State) (e : Event) :
  shortcutsPopup st = None -> shortcutsPopup (handle st e) = None.
Proof. intros H. destruct e; simpl; rewrite H; reflexivity. Qed.

Lemma shortcuts_shown_handle (st : State) (e : Event) :
  shortcutsPopup st = Some false -> shortcutsPopup (handle st e) = Some false.
Proof. intros H. destruct e; simpl; rewrite H; reflexivity. Qed.

Lemma about_shown_handle (st : State) (e : Event) :
  aboutPopup_hidden st = false -> aboutPopup_hidden (handle st e) = false.
Proof. intros H. destruct e; simpl; [exact H | reflexivity]. Qed.

Lemma run_preserves (P : State -> Prop) (es : list Event) (st : State) :
  (forall st e, P st -> P (handle st e)) -> P st -> P (run es st).
Proof.
  intros HP. revert st; induction es as [|e es IH]; intros st H; simpl;
    [exact H | apply IH, HP, H].
Qed.

End PopupFacts.

(** In viewer mode there is no shortcuts popup and show.shortcuts never
    brings one up; in editor mode the shortcuts popup is shown once a
    show.shortcuts has arrived, the about popup (in both modes) once a
    show.about has, and neither handler ever hides a popup again. *)
Theorem popups_after_events (options : Editor.EditorUIOptions)
        (hidden0 : bool) (es : list Popups.Event) :
  let st := Popups.run es (Popups.constructed options hidden0) in
  (Editor.flag options = true -> Popups.shortcutsPopup st = None)
  /\ (Editor.flag options = false -> In Popups.ShowShortcuts es ->
      Popups.shortcutsPopup st = Some false)
  /\ (In Popups.ShowAbout es -> Popups.aboutPopup_hidden st = false).
Proof.
  intros st. unfold st. split; [|split].
  - intros Hf. apply run_preserves; [apply shortcuts_absent_handle|].
    unfold Popups.constructed. rewrite Hf. reflexivity.
  - intros Hf Hin. apply in_split in Hin as (l1 & l2 & ->).
    unfold Popups.run. rewrite fold_left_app. cbn [fold_left].
    apply (run_preserves (fun st => Popups.shortcutsPopup st = Some false));
      [apply shortcuts_shown_handle|].
    assert (Hs : exists b,
               Popups.shortcutsPopup
                 (fold_left Popups.handle l1
                            (Popups.constructed options hidden0)) = Some b).
    { apply (run_preserves
               (fun st => exists b, Popups.shortcutsPopup st = Some b)).
      - intros s e [b Hb]. destruct e; simpl; rewrite Hb; eauto.
      - unfold Popups.constructed. rewrite Hf. simpl. eauto. }
    destruct Hs as [b Hb]. simpl. rewrite Hb. reflexivity.
  - intros Hin. apply in_split in Hin as (l1 & l2 & ->).
    unfold Popups.run. rewrite fold_left_app. cbn [fold_left].
    apply (run_preserves (fun st => Popups.aboutPopup_hidden st = false));
      [apply about_shown_handle | reflexivity].
Qed.

Lemma popups_after_events_witness :
  Popups.shortcutsPopup
    (Popups.run [Popups.ShowShortcuts; Popups.ShowAbout]
                (Popups.constructed (Editor.mkOptions (Some true)) true))
  = None
  /\ Popups.shortcutsPopup
       (Popups.run [Popups.ShowAbout; Popups.ShowShortcuts]
                   (Popups.constructed Editor.default_options true))
     = Some false
  /\ Popups.aboutPopup_hidden
       (Popups.run [Popups.ShowAbout; Popups.ShowShortcuts]
                   (Popups.constructed Editor.default_options true))
     = false.
Proof.
  split; [|split].
  - destruct (popups_after_events (Editor.mkOptions (Some true)) true
                [Popups.ShowShortcuts; Popups.ShowAbout]) as (H & _ & _).
    apply H. reflexivity.
  - destruct (popups_after_events Editor.default_options true
                [Popups.ShowAbout; Popups.ShowShortcuts]) as (_ & H & _).
    apply H; [reflexivity | right; left; reflexivity].
  - destruct (popups_after_events Editor.default_options true
                [Popups.ShowAbout; Popups.ShowShortcuts]) as (_ & _ & H).
    apply H. left; reflexivity.
Defined.

(** ** Image flow *)

(** The image flow invokes render.image exactly when the dialog was
    confirmed, with the settings it gave; it has no [catch], so it
    rejects exactly when that invocation rejects, with the same error. *)
Theorem image_flow_invokes_and_rejects (env : ImageFlow.Env)
        (settings : ImageFlow.ImageSettings) (e : Flow.Thrown) :
  let result := ImageFlow.show_imageSettingsDialog env in
  (In (ImageFlow.Invoke_render_image settings) (snd result)
   <-> ImageFlow.imageSettingsDialog_show env = Some settings)
  /\ (fst result = Flow.Threw e
      <-> exists s, ImageFlow.imageSettingsDialog_show env = Some s
                    /\ ImageFlow.render_image env s = Flow.Threw e).
Proof.
  intros result. unfold result, ImageFlow.show_imageSettingsDialog.
  destruct (ImageFlow.imageSettingsDialog_show env) as [s|]; cbn [fst snd].
  - split.
    + split; intros H.
      * destruct H as [H|[H|[]]]; [discriminate H | congruence].
      * injection H as ->. right; left; reflexivity.
    + destruct (ImageFlow.render_image env s) as [[]|e'] eqn:Hr; split;
        intros H; first [discriminate H | idtac].
      * destruct H as (s' & Hs & Hr'). congruence.
      * exists s. split; [reflexivity | congruence].
      * destruct H as (s' & Hs & Hr'). congruence.
  - split; split; intros H; try discriminate H.
    + destruct H as [H|[]]. discriminate H.
    + destruct H as (s' & Hs & _). discriminate Hs.
Qed.

(** ** Spinner: bounds on the count *)

Section SpinnerBounds.

Import Spinner.

Lemma stops_cons (e : Event) (es : list Event) :
  stops (e :: es) = stops es + (if is_stop e then 1 else 0)
  /\ starts (e :: es) = starts es + (if is_start e then 1 else 0).
Proof.
  unfold stops, starts, is_stop.
  destruct e; cbn [filter is_start negb List.length];
    rewrite ?Nat2Z.inj_succ; lia.
Qed.

Lemma lowest_ge_stops (es : list Event) : - stops es <= lowest es.
Proof.
  induction es as [|e es IH]; [reflexivity|].
  destruct (stops_cons e es) as [-> _]. simpl lowest.
  assert (0 <= stops es) by (unfold stops; lia).
  destruct e; cbn [is_stop is_start negb delta]; lia.
Qed.

End SpinnerBounds.

(** After any sequence of events from the initial state the count lies
    between [max(0, starts - stops)] and the number of startSpinner
    events. *)
Theorem spinner_count_bounds (es : list Spinner.Event) :
  let count := Spinner.spinnerCount (Spinner.run es Spinner.initial) in
  Z.max 0 (Spinner.starts es - Spinner.stops es) <= count
  /\ count <= Spinner.starts es.
Proof.
  intros count. split; [apply count_run_ge|].
  unfold count. rewrite count_run by (simpl; lia).
  pose proof (lowest_ge_stops es). pose proof (lowest_nonpos es).
  unfold Spinner.balance. simpl Spinner.spinnerCount. lia.
Qed.

Lemma preset_buttons_cover_presets_witness :
  let button := Editor.makeButton "Image 2" Editor.image2 in
  filter CameraPresets.is_fire (CameraPresets.click button None)
  = [CameraPresets.Fire_camera_setPose
       (CameraPresets.CAMERA_TARGETS Editor.image2) 2.6%float "easeIn"].
Proof.
  intros button.
  destruct (preset_buttons_cover_presets Editor.image2 None) as [_ H].
  apply (H button). right; left; reflexivity.
Defined.

Lemma widgets_by_mode_witness :
  In Editor.ViewCube
     (Editor.canvasContainer (Editor.constructor Editor.default_options)
      ++ Editor.mainContainer (Editor.constructor Editor.default_options)
      ++ Editor.topContainer (Editor.constructor Editor.default_options))
  /\ ~ In Editor.Menu
       (Editor.canvasContainer
          (Editor.constructor (Editor.mkOptions (Some true)))
        ++ Editor.mainContainer
             (Editor.constructor (Editor.mkOptions (Some true)))
        ++ Editor.topContainer
             (Editor.constructor (Editor.mkOptions (Some true)))).
Proof.
  split.
  - destruct (widgets_by_mode Editor.default_options) as (_ & H & _).
    apply H. do 5 right. left. reflexivity.
  - destruct (widgets_by_mode (Editor.mkOptions (Some true))) as (_ & _ & H).
    intros Hin. apply (H Editor.Menu) in Hin; [discriminate Hin|].
    do 5 right. left. reflexivity.
Defined.

(** ** Where the suggested name is the stripped name *)

Section StrippedNames.

Import VideoNaming Reading.
Local Open Scope string_scope.

Lemma split_pieces_no_sep (c : ascii) (s q : string) :
  In q (split c s) -> contains c q = false.
Proof.
  revert q; induction s as [|a r IH]; intros q; simpl.
  - intros [<-|[]]. reflexivity.
  - destruct (Ascii.eqb_spec a c) as [->|Ha].
    + intros [<-|H]; [reflexivity | apply IH, H].
    + apply Ascii.eqb_neq in Ha.
      destruct (split c r) as [|piece pieces] eqn:E.
      * intros [<-|[]]. simpl. rewrite Ha. reflexivity.
      * intros [<-|H].
        -- simpl. rewrite Ha. simpl. apply (IH piece). left; reflexivity.
        -- apply IH. right; exact H.
Qed.

Lemma strip_no_dot (s : string) :
  contains "." s = false -> spec_strip_extension s = s.
Proof.
  induction s as [|a r IH]; [reflexivity|].
  simpl. intros H. apply orb_false_iff in H as [Ha Hr].
  rewrite Hr, Ha, (IH Hr). reflexivity.
Qed.

Lemma contains_app (c : ascii) (p q : string) :
  contains c (p ++ String c q) = true.
Proof.
  induction p as [|a p IH]; simpl.
  - rewrite Ascii.eqb_refl. reflexivity.
  - rewrite IH. apply orb_true_r.
Qed.

Lemma strip_app (p q : string) :
  contains "." q = false -> spec_strip_extension (p ++ String "." q) = p.
Proof.
  intros Hq. induction p as [|a p IH].
  - cbn [append spec_strip_extension]. rewrite Hq. reflexivity.
  - cbn [append spec_strip_extension]. rewrite contains_app, IH.
    reflexivity.
Qed.

(** What [removeExtension] returns for a name without a question
    mark. *)
Lemma removeExtension_cases (filename : string) :
  contains "?" filename = false ->
  (contains "." filename = false /\ removeExtension filename = filename)
  \/ (exists p q,
        filename = p ++ String "." q /\ contains "." q = false
        /\ removeExtension filename = p).
Proof.
  intros Hq. unfold removeExtension, getExtension.
  rewrite (split_no_sep _ _ Hq). cbn [hd].
  destruct (split_last "." filename) as [E|(p & q & qs & E & Hqs & Hf)].
  - left. split.
    + apply (split_pieces_no_sep "." filename). rewrite E. left; reflexivity.
    + rewrite E. cbn [last]. rewrite String.eqb_refl. cbn [String.length].
      rewrite Nat.sub_0_r. apply substring_whole.
  - right. exists p, (last qs "").
    assert (El : last (split "." filename) "" = last qs "").
    { rewrite E. destruct qs; [contradiction Hqs; reflexivity | reflexivity]. }
    assert (Hlast : contains "." (last qs "") = false).
    { apply (split_pieces_no_sep "." filename). rewrite E. right.
      apply exists_last in Hqs as (l & x & ->). rewrite last_last.
      apply in_or_app. right. left. reflexivity. }
    split; [exact Hf|]. split; [exact Hlast|].
    rewrite El.
    destruct (String.eqb_spec (last qs "") filename) as [Heq|_].
    + exfalso. apply (f_equal String.length) in Hf.
      rewrite length_app in Hf. cbn [String.length] in Hf.
      rewrite Heq in Hf. lia.
    + change ("." ++ last qs "") with (String "." (last qs "")).
      rewrite Hf at 1 2. rewrite length_app.
      replace (String.length p + String.length (String "." (last qs ""))
               - String.length (String "." (last qs "")))%nat
        with (String.length p) by lia.
      apply substring_app_prefix.
Qed.

(** For a document name without a question mark, [removeExtension] gives
    the name up to its last dot (the whole name when it has none): there
    the suggested file name is the stripped name plus the extension. *)
Lemma removeExtension_strips (filename : string) :
  contains "?" filename = false ->
  removeExtension filename = spec_strip_extension filename.
Proof.
  intros Hq.
  destruct (removeExtension_cases filename Hq)
    as [[Hd ->]|(p & q & Hf & Hd & ->)].
  - symmetry. apply strip_no_dot, Hd.
  - rewrite Hf. symmetry. apply strip_app, Hd.
Qed.

End StrippedNames.
